(** * authFlow.ts: the OAuth callback, the token slot and the data routes

    A shallow embedding of [src/authFlow.ts].  The module keeps one mutable
    variable, [accessToken], and talks to the outside through [axios] and
    [console.error].  The [World] holds the variable together with two
    observation traces: the outbound HTTP requests issued so far and the
    lines written to the console.

    A handler is an [async] function: it runs without interruption up to an
    [await] of an axios call, and is resumed when the call settles, in the
    world the other invocations have left meanwhile.  Handlers are embedded
    as computations in a state-and-exception monad whose results are such
    resumable tasks.  [alone] serves one invocation with nothing in between;
    [interleave] runs a schedule of arrivals and settlements. *)

From Stdlib Require Import String Ascii List Bool Arith QArith Lia.
From Stdlib Require Import DecimalString Decimal.
Import ListNotations.
Close Scope Q_scope.
Open Scope list_scope.
Open Scope string_scope.

Set Implicit Arguments.
Set Warnings "-register-all".

(** ** JavaScript values

    [data] of an axios response and the entries of [req.query] are untyped
    ([any]) in the source, so they range over the values that [JSON.parse]
    and the query parser can produce, plus [undefined].  Objects keep their
    entries in order; a property is looked up by its first entry. *)

Inductive JsValue : Type :=
| JUndefined
| JNull
| JBool (b : bool)
| JNumber (q : Q)
| JString (s : string)
| JArray (items : list JsValue)
| JObject (entries : list (string * JsValue)).

Fixpoint assoc {A : Type} (k : string) (l : list (string * A)) : option A :=
  match l with
  | [] => None
  | (k', v) :: rest => if String.eqb k k' then Some v else assoc k rest
  end.

(** ToBoolean, as used by [!accessToken] and [req.query.week || 'current']. *)
Definition truthy (v : JsValue) : bool :=
  match v with
  | JUndefined | JNull => false
  | JBool b => b
  | JNumber q => negb (Qeq_bool q 0%Q)
  | JString s => negb (String.eqb s "")
  | JArray _ | JObject _ => true
  end.

(** [typeof v === 'string'] *)
Definition is_string (v : JsValue) : bool :=
  match v with
  | JString _ => true
  | _ => false
  end.

(** ** Thrown values and completions *)

Inductive JsError : Type :=
| Error (message : string)        (* new Error(message) *)
| TypeError (property : string)   (* reading [property] of undefined or null *)
| NotPrimitive                    (* TypeError: cannot convert object to primitive value *)
| AxiosError (detail : string).   (* the rejection of an axios promise *)

Inductive Completion (A : Type) : Type :=
| Normal (a : A)
| Throw (e : JsError).
Arguments Normal {A} a.
Arguments Throw {A} e.

(** Property reads.  [v.name] and [v[i]] throw on [undefined] and [null].
    The names read by this program ([access_token], [fantasy_content],
    [users], [user], [games], [game], [leagues], [league], [league_key]) are
    not inherited properties of arrays, strings, numbers or booleans, so a
    named read on those yields [undefined].  An indexed read [v[i]] on an
    object reads the property whose name is the decimal numeral of [i]. *)

Definition index_name (i : nat) : string :=
  NilZero.string_of_uint (Nat.to_uint i).

Definition get_field (v : JsValue) (name : string) : Completion JsValue :=
  match v with
  | JUndefined | JNull => Throw (TypeError name)
  | JObject entries =>
      match assoc name entries with
      | Some x => Normal x
      | None => Normal JUndefined
      end
  | _ => Normal JUndefined
  end.

Definition get_index (v : JsValue) (i : nat) : Completion JsValue :=
  match v with
  | JUndefined | JNull => Throw (TypeError (index_name i))
  | JObject entries =>
      match assoc (index_name i) entries with
      | Some x => Normal x
      | None => Normal JUndefined
      end
  | JArray items =>
      match nth_error items i with
      | Some x => Normal x
      | None => Normal JUndefined
      end
  | JString s =>
      match String.get i s with
      | Some c => Normal (JString (String c EmptyString))
      | None => Normal JUndefined
      end
  | _ => Normal JUndefined
  end.

(** A chain of property reads [v.a[i].b...]: each read is made on the value
    the previous one produced, and a read that throws ends the chain. *)
Inductive Accessor : Type :=
| Field (name : string)
| Index (i : nat).

Definition read (v : JsValue) (a : Accessor) : Completion JsValue :=
  match a with
  | Field name => get_field v name
  | Index i => get_index v i
  end.

Fixpoint read_path (v : JsValue) (path : list Accessor) : Completion JsValue :=
  match path with
  | [] => Normal v
  | a :: rest =>
      match read v a with
      | Normal x => read_path x rest
      | Throw e => Throw e
      end
  end.

(** ** Requests, responses, the world *)

Inductive Method : Type := GET | POST.

(** An outbound axios call: method, URL, headers and (for POST) the body. *)
Record Request : Type := mkRequest {
  method : Method;
  url : string;
  headers : list (string * string);
  data : option string
}.

(** What the remote side makes of one call: axios rejects (network error,
    status outside 2xx) or resolves with a response whose [data] it hands
    over. *)
Inductive Outcome : Type :=
| Rejected (detail : string)
| Resolved (body : JsValue).

Inductive Body : Type :=
| Text (s : string)        (* res.send(s) *)
| Json (v : JsValue)       (* res.json(v) *)
| Location (target : string). (* res.redirect(target) *)

Record Response : Type := mkResponse {
  status : nat;
  body : Body
}.

(** The inbound request, as far as the handlers read it: [req.query]. *)
Record Req : Type := mkReq {
  query : list (string * JsValue)
}.

Definition query_param (req : Req) (name : string) : JsValue :=
  match assoc name (query req) with
  | Some v => v
  | None => JUndefined
  end.

Record World : Type := mkWorld {
  accessToken : JsValue;                 (* let accessToken: string | null *)
  outbound : list Request;               (* axios calls issued, oldest first *)
  console : list (string * JsError)      (* console.error lines, oldest first *)
}.

(** The module's initial state: [let accessToken = null], nothing sent. *)
Definition initial : World :=
  {| accessToken := JNull; outbound := []; console := [] |}.

(** ** Tasks and the monad

    The result of running a piece of handler code from a world: it has
    completed, in some world, or it has reached an [await] of the call [rq]
    and goes on, once the call has settled, from the world of that moment. *)

Inductive Task (A : Type) : Type :=
| Ret (c : Completion A) (w : World)
| Await (rq : Request) (w : World) (resume : Outcome -> World -> Task A).
Arguments Ret {A} c w.
Arguments Await {A} rq w resume.

Definition Js (A : Type) : Type := World -> Task A.

Definition ret {A : Type} (a : A) : Js A := fun w => Ret (Normal a) w.

Definition throw {A : Type} (e : JsError) : Js A := fun w => Ret (Throw e) w.

Definition lift {A : Type} (c : Completion A) : Js A := fun w => Ret c w.

Fixpoint bind_task {A B : Type} (t : Task A) (k : A -> Js B) : Task B :=
  match t with
  | Ret (Normal a) w => k a w
  | Ret (Throw e) w => Ret (Throw e) w
  | Await rq w resume => Await rq w (fun o w' => bind_task (resume o w') k)
  end.

Definition bind {A B : Type} (m : Js A) (k : A -> Js B) : Js B :=
  fun w => bind_task (m w) k.

Fixpoint catch_task {A : Type} (t : Task A) (h : JsError -> Js A) : Task A :=
  match t with
  | Ret (Normal a) w => Ret (Normal a) w
  | Ret (Throw e) w => h e w
  | Await rq w resume => Await rq w (fun o w' => catch_task (resume o w') h)
  end.

(** [try { m } catch (error) { h error }] *)
Definition try_catch {A : Type} (m : Js A) (h : JsError -> Js A) : Js A :=
  fun w => catch_task (m w) h.

Declare Scope js_scope.
Delimit Scope js_scope with js.
Notation "x <- m ;; k" := (bind m (fun x => k))
  (at level 61, m at next level, right associativity) : js_scope.
Notation "m ;;; k" := (bind m (fun _ => k))
  (at level 61, right associativity) : js_scope.
Open Scope js_scope.

(** [await axios.post(...)], [await axios.get(...)]: the handler suspends on
    the call; a rejected promise is thrown where the handler resumes. *)
Definition axios (rq : Request) : Js JsValue :=
  fun w =>
    Await rq w
      (fun o w' =>
         match o with
         | Resolved d => Ret (Normal d) w'
         | Rejected detail => Ret (Throw (AxiosError detail)) w'
         end).

(** The call a task waits for, if it waits, and the task it becomes when
    that call settles with [o] in the world [w']. *)
Definition awaited {A : Type} (t : Task A) : option Request :=
  match t with
  | Await rq _ _ => Some rq
  | Ret _ _ => None
  end.

Definition resumed {A : Type} (t : Task A) (o : Outcome) (w' : World) : Task A :=
  match t with
  | Await _ _ resume => resume o w'
  | Ret c w => Ret c w
  end.

(** [ends_with t c]: the task can complete with [c], for some way its calls
    settle and some worlds it is resumed in. *)
Inductive ends_with {A : Type} : Task A -> Completion A -> Prop :=
| ends_ret (c : Completion A) (w : World) : ends_with (Ret c w) c
| ends_await (rq : Request) (w : World) (resume : Outcome -> World -> Task A)
    (o : Outcome) (w' : World) (c : Completion A) :
    ends_with (resume o w') c -> ends_with (Await rq w resume) c.

Definition read_accessToken : Js JsValue :=
  fun w => Ret (Normal (accessToken w)) w.

Definition assigned (v : JsValue) (w : World) : World :=
  {| accessToken := v; outbound := outbound w; console := console w |}.

Definition sent (rq : Request) (w : World) : World :=
  {| accessToken := accessToken w;
     outbound := (outbound w ++ [rq])%list;
     console := console w |}.

Definition logged (label : string) (error : JsError) (w : World) : World :=
  {| accessToken := accessToken w;
     outbound := outbound w;
     console := (console w ++ [(label, error)])%list |}.

Definition write_accessToken (v : JsValue) : Js unit :=
  fun w => Ret (Normal tt) (assigned v w).

Definition console_error (label : string) (error : JsError) : Js unit :=
  fun w => Ret (Normal tt) (logged label error w).

(** ** The surroundings of the module

    [clientId], [clientSecret] and [port] come from the process environment
    (the module exits at load time unless both credentials are non-empty
    strings; [port] is the rendering of [process.env.PORT || 3000]).
    [qs_stringify] is [querystring.stringify] on the list of fields,
    [base64] is [Buffer.from(s).toString('base64')], [number_to_string] is
    the string conversion of a number inside a template literal.
    [network] is the remote side: the outcome of a call, given the calls this
    process issued before it. *)

Record Env : Type := mkEnv {
  clientId : string;
  clientSecret : string;
  port : string;
  qs_stringify : list (string * string) -> string;
  base64 : string -> string;
  number_to_string : Q -> string;
  network : list Request -> Request -> Outcome
}.

(** Surroundings used in the examples: fixed credentials, transparent
    encoders, and a remote side given by the caller. *)
Definition sample_env (net : list Request -> Request -> Outcome) : Env :=
  {| clientId := "client";
     clientSecret := "secret";
     port := "3000";
     qs_stringify := fun fields =>
       String.concat "&" (map (fun kv => fst kv ++ "=" ++ snd kv) fields);
     base64 := fun s => s;
     number_to_string := fun _ => "0";
     network := net |}.

(** ** The module body *)

Section AuthFlow.

Variable env : Env.

(** String conversion inside a template literal, [`${v}`].  An array joins
    its elements with commas, rendering [undefined] and [null] elements as
    empty.  An object renders as [[object Object]] through the inherited
    [toString]; an object with an own [toString] property (which, in a value
    parsed from JSON or from a query string, is never a function) cannot be
    converted, and the conversion throws. *)
Fixpoint to_string (v : JsValue) : Completion string :=
  match v with
  | JUndefined => Normal "undefined"
  | JNull => Normal "null"
  | JBool true => Normal "true"
  | JBool false => Normal "false"
  | JNumber q => Normal (number_to_string env q)
  | JString s => Normal s
  | JArray items =>
      (fix join (l : list JsValue) : Completion string :=
         match l with
         | [] => Normal ""
         | x :: rest =>
             match
               match x with
               | JUndefined | JNull => Normal ""
               | _ => to_string x
               end
             with
             | Throw e => Throw e
             | Normal piece =>
                 match rest with
                 | [] => Normal piece
                 | _ :: _ =>
                     match join rest with
                     | Throw e => Throw e
                     | Normal tail => Normal (piece ++ "," ++ tail)
                     end
                 end
             end
         end) items
  | JObject entries =>
      match assoc "toString" entries with
      | Some _ => Throw NotPrimitive
      | None => Normal "[object Object]"
      end
  end.

Definition redirectUri : string :=
  "https://localhost:" ++ port env ++ "/callback".

Definition authorizationUrl : string :=
  "https://api.login.yahoo.com/oauth2/request_auth".
Definition tokenUrl : string :=
  "https://api.login.yahoo.com/oauth2/get_token".

(** [app.get('/auth', ...)]; [Location] holds the argument of
    [res.redirect]. *)
Definition auth (req : Req) : Js Response :=
  let authUrl := authorizationUrl ++ "?client_id=" ++ clientId env
                 ++ "&redirect_uri=" ++ redirectUri ++ "&response_type=code" in
  ret {| status := 302; body := Location authUrl |}.

(** The token exchange of the callback:
    [axios.post(tokenUrl, qs.stringify({code, redirect_uri, grant_type}),
                {headers: {Authorization: `Basic ...`, 'Content-Type': ...}})] *)
Definition token_request (code : string) : Request :=
  {| method := POST;
     url := tokenUrl;
     headers :=
       [("Authorization",
         "Basic " ++ base64 env (clientId env ++ ":" ++ clientSecret env));
        ("Content-Type", "application/x-www-form-urlencoded")];
     data := Some (qs_stringify env [("code", code);
                                     ("redirect_uri", redirectUri);
                                     ("grant_type", "authorization_code")]) |}.

(** [app.get('/callback', ...)] *)
Definition callback (req : Req) : Js Response :=
  let code := query_param req "code" in
  match code with
  | JString code =>
      try_catch
        (data <- axios (token_request code) ;;
         token <- lift (get_field data "access_token") ;;
         write_accessToken token ;;;
         ret {| status := 200;
                body := Text "Authentication successful! You can close this window." |})
        (fun error =>
           console_error "Error getting token:" error ;;;
           ret {| status := 500; body := Text "Authentication failed" |})
  | _ => ret {| status := 400; body := Text "Invalid authorization code" |}
  end.

(** The call of the helper, [bearer] being the rendering of the token:
    [axios.get(url, {headers: {Authorization: `Bearer ${accessToken}`,
                               'Content-Type': ...}})] *)
Definition bearer_request (bearer : string) (u : string) : Request :=
  {| method := GET;
     url := u;
     headers :=
       [("Authorization", "Bearer " ++ bearer);
        ("Content-Type", "application/x-www-form-urlencoded")];
     data := None |}.

(** The label [makeAuthenticatedRequest] passes to [console.error]. *)
Definition helper_label : string := "Error making authenticated request:".

(** [async function makeAuthenticatedRequest(url)] *)
Definition makeAuthenticatedRequest (u : string) : Js JsValue :=
  token <- read_accessToken ;;
  if negb (truthy token) then throw (Error "Not authenticated")
  else
    try_catch
      (token <- read_accessToken ;;
       bearer <- lift (to_string token) ;;
       axios (bearer_request bearer u))
      (fun error =>
         console_error helper_label error ;;;
         throw error).

Definition not_authenticated : Response :=
  {| status := 401; body := Text "Not authenticated. Please authenticate first." |}.

Definition gamesUrl : string :=
  "https://fantasysports.yahooapis.com/fantasy/v2/users;use_login=1/games?format=json".
Definition leaguesUrl : string :=
  "https://fantasysports.yahooapis.com/fantasy/v2/users;use_login=1/games;game_keys=nhl/leagues?format=json".

(** [app.get('/test', ...)] *)
Definition test (req : Req) : Js Response :=
  token <- read_accessToken ;;
  if negb (truthy token) then ret not_authenticated
  else
    try_catch
      (data <- makeAuthenticatedRequest gamesUrl ;;
       ret {| status := 200; body := Json data |})
      (fun error =>
         console_error "Error in /test route:" error ;;;
         ret {| status := 500; body := Text "Error making authenticated request" |}).

(** [app.get('/nhl-leagues', ...)] *)
Definition nhl_leagues (req : Req) : Js Response :=
  token <- read_accessToken ;;
  if negb (truthy token) then ret not_authenticated
  else
    try_catch
      (data <- makeAuthenticatedRequest leaguesUrl ;;
       ret {| status := 200; body := Json data |})
      (fun error =>
         console_error "Error in /nhl-leagues route:" error ;;;
         ret {| status := 500; body := Text "Error fetching NHL league information" |}).

(** [leaguesData.fantasy_content.users[0].user[1].games[0].game[1]
       .leagues[0].league[0].league_key] *)
Definition league_key_of (leaguesData : JsValue) : Completion JsValue :=
  read_path leaguesData
    [Field "fantasy_content"; Field "users"; Index 0; Field "user"; Index 1;
     Field "games"; Index 0; Field "game"; Index 1; Field "leagues"; Index 0;
     Field "league"; Index 0; Field "league_key"].

(** [`https://.../league/${leagueKey}/scoreboard;week=${week}?format=json`]:
    the key is converted first, then the week. *)
Definition scoreboardUrl (leagueKey week : JsValue) : Completion string :=
  match to_string leagueKey with
  | Throw e => Throw e
  | Normal k =>
      match to_string week with
      | Throw e => Throw e
      | Normal wk =>
          Normal ("https://fantasysports.yahooapis.com/fantasy/v2/league/" ++ k
                    ++ "/scoreboard;week=" ++ wk ++ "?format=json")
      end
  end.

(** [`https://.../league/${leagueKey}/teams?format=json`] *)
Definition teamsUrl (leagueKey : JsValue) : Completion string :=
  match to_string leagueKey with
  | Throw e => Throw e
  | Normal k =>
      Normal ("https://fantasysports.yahooapis.com/fantasy/v2/league/" ++ k
                ++ "/teams?format=json")
  end.

(** [req.query.week || 'current'] *)
Definition week_of (req : Req) : JsValue :=
  if truthy (query_param req "week")
  then query_param req "week"
  else JString "current".

(** [app.get('/nhl-matchups', ...)] *)
Definition nhl_matchups (req : Req) : Js Response :=
  token <- read_accessToken ;;
  if negb (truthy token) then ret not_authenticated
  else
    let week := week_of req in
    try_catch
      (leaguesData <- makeAuthenticatedRequest leaguesUrl ;;
       leagueKey <- lift (league_key_of leaguesData) ;;
       scoped <- lift (scoreboardUrl leagueKey week) ;;
       matchupsData <- makeAuthenticatedRequest scoped ;;
       ret {| status := 200; body := Json matchupsData |})
      (fun error =>
         console_error "Error in /nhl-matchups route:" error ;;;
         ret {| status := 500; body := Text "Error fetching NHL matchup information" |}).

(** [app.get('/nhl-teams', ...)] *)
Definition nhl_teams (req : Req) : Js Response :=
  token <- read_accessToken ;;
  if negb (truthy token) then ret not_authenticated
  else
    try_catch
      (leaguesData <- makeAuthenticatedRequest leaguesUrl ;;
       leagueKey <- lift (league_key_of leaguesData) ;;
       scoped <- lift (teamsUrl leagueKey) ;;
       teamsData <- makeAuthenticatedRequest scoped ;;
       ret {| status := 200; body := Json teamsData |})
      (fun error =>
         console_error "Error in /nhl-teams route:" error ;;;
         ret {| status := 500; body := Text "Error fetching NHL team information" |}).

(** ** The router *)

Inductive Route : Type :=
| Auth | Callback | Test | NhlLeagues | NhlMatchups | NhlTeams.

Definition is_data_route (r : Route) : bool :=
  match r with
  | Test | NhlLeagues | NhlMatchups | NhlTeams => true
  | Auth | Callback => false
  end.

Definition handle (r : Route) (req : Req) : Js Response :=
  match r with
  | Auth => auth req
  | Callback => callback req
  | Test => test req
  | NhlLeagues => nhl_leagues req
  | NhlMatchups => nhl_matchups req
  | NhlTeams => nhl_teams req
  end.

(** ** Running tasks *)

(** A task served alone: each call it waits for settles as the network
    decides, given the calls issued before it, and the task is resumed at
    once, in the world it left. *)
Fixpoint alone_task {A : Type} (t : Task A) : Completion A * World :=
  match t with
  | Ret c w => (c, w)
  | Await rq w resume =>
      alone_task (resume (network env (outbound w) rq) (sent rq w))
  end.

Definition alone {A : Type} (m : Js A) (w : World) : Completion A * World :=
  alone_task (m w).

(** The world after serving a sequence of invocations one after another, and
    the answers given on the way. *)
Fixpoint serve (invocations : list (Route * Req)) (w : World) : World :=
  match invocations with
  | [] => w
  | (r, req) :: rest => serve rest (snd (alone (handle r req) w))
  end.

Fixpoint answers (invocations : list (Route * Req)) (w : World)
  : list (Completion Response) :=
  match invocations with
  | [] => []
  | (r, req) :: rest =>
      fst (alone (handle r req) w) :: answers rest (snd (alone (handle r req) w))
  end.

(** The server with invocations in flight: the world, the suspended
    invocations, each with the outcome its call will settle with, and the
    answers given so far.  An event is the arrival of a request or the
    settlement of the call of the [i]-th suspended invocation. *)
Record Suspended : Type := mkSuspended {
  continuation : Outcome -> World -> Task Response;
  settlement : Outcome
}.

Record Server : Type := mkServer {
  world : World;
  waiting : list Suspended;
  answered : list (Completion Response)
}.

Inductive Event : Type :=
| Arrives (r : Route) (req : Req)
| Settles (i : nat).

Definition advance (t : Task Response) (others : list Suspended)
    (given : list (Completion Response)) : Server :=
  match t with
  | Ret c w =>
      {| world := w; waiting := others; answered := (given ++ [c])%list |}
  | Await rq w resume =>
      {| world := sent rq w;
         waiting := (others ++
                       [{| continuation := resume;
                           settlement := network env (outbound w) rq |}])%list;
         answered := given |}
  end.

Fixpoint without {A : Type} (i : nat) (l : list A) : list A :=
  match l, i with
  | [], _ => []
  | _ :: rest, 0 => rest
  | x :: rest, S j => x :: without j rest
  end.

Definition step (s : Server) (ev : Event) : Server :=
  match ev with
  | Arrives r req => advance (handle r req (world s)) (waiting s) (answered s)
  | Settles i =>
      match nth_error (waiting s) i with
      | None => s
      | Some p =>
          advance (continuation p (settlement p) (world s))
                  (without i (waiting s)) (answered s)
      end
  end.

Definition interleave (events : list Event) (s : Server) : Server :=
  fold_left step events s.

Definition idle (w : World) : Server :=
  {| world := w; waiting := []; answered := [] |}.

(** ** Vocabulary of the statements *)

(** The text each data route sends from its [catch] block. *)
Definition failure_message (r : Route) : string :=
  match r with
  | Test => "Error making authenticated request"
  | NhlLeagues => "Error fetching NHL league information"
  | NhlMatchups => "Error fetching NHL matchup information"
  | NhlTeams => "Error fetching NHL team information"
  | Auth | Callback => ""
  end.

(** The label each data route passes to [console.error] in its [catch]. *)
Definition route_label (r : Route) : string :=
  match r with
  | Test => "Error in /test route:"
  | NhlLeagues => "Error in /nhl-leagues route:"
  | NhlMatchups => "Error in /nhl-matchups route:"
  | NhlTeams => "Error in /nhl-teams route:"
  | Auth | Callback => ""
  end.

(** The routes that read a league key before their last call. *)
Definition league_scoped (r : Route) : bool :=
  match r with
  | NhlMatchups | NhlTeams => true
  | _ => false
  end.

(** The URL of the last call of a data route; [leagueKey] matters to the
    league-scoped routes only. *)
Definition final_url (r : Route) (req : Req) (leagueKey : JsValue)
  : Completion string :=
  match r with
  | NhlLeagues => Normal leaguesUrl
  | NhlMatchups => scoreboardUrl leagueKey (week_of req)
  | NhlTeams => teamsUrl leagueKey
  | _ => Normal gamesUrl
  end.

(** The URL of the first call of a data route. *)
Definition first_url (r : Route) : string :=
  match r with
  | Test => gamesUrl
  | _ => leaguesUrl
  end.

Definition failed (r : Route) : Completion Response :=
  Normal {| status := 500; body := Text (failure_message r) |}.

Definition relayed (d : JsValue) : Completion Response :=
  Normal {| status := 200; body := Json d |}.

(** The world a data route leaves when it [catch]es [e]. *)
Definition caught (r : Route) (e : JsError) (w : World) : World :=
  logged (route_label r) e w.

(** The world the helper leaves when it rethrows [e], then the route's. *)
Definition rethrown (r : Route) (e : JsError) (w : World) : World :=
  logged (route_label r) e (logged helper_label e w).

End AuthFlow.

(** ** Module load

    The statements the module runs when it is loaded: the settings read from
    [process.env] (after [dotenv.config()]), the guard on the credentials
    (lines 14-25), the two certificate files (lines 173-176) and the start of
    the HTTPS server (line 179).  [files] is the file system as
    [fs.readFileSync] finds it, [opens key cert port] tells whether
    [https.createServer] and [listen] succeed.  A failure of either is an
    uncaught exception, which ends the process; the guard ends it with
    [process.exit(1)] after a message.  What the module does once it
    listens (two console lines and the attempt to open a browser, whose
    failure is only logged) is not part of [boot]. *)

Definition ProcessEnv : Type := list (string * string).

(** [process.env.NAME] *)
Definition env_var (penv : ProcessEnv) (name : string) : JsValue :=
  match assoc name penv with
  | Some v => JString v
  | None => JUndefined
  end.

(** [process.env.NAME || fallback], rendered as a string; the fallback
    [3000] of the port renders as ["3000"]. *)
Definition env_or (penv : ProcessEnv) (name fallback : string) : string :=
  match env_var penv name with
  | JString v => if truthy (JString v) then v else fallback
  | _ => fallback
  end.

Record Settings : Type := mkSettings {
  listenPort : string;
  yahooClientId : string;
  yahooClientSecret : string;
  keyPath : string;
  certPath : string
}.

Inductive LoadStep : Type :=
| ReadKey | ReadCert | Listen.

Inductive Boot : Type :=
| Exited (code : nat) (message : string)   (* console.error; process.exit *)
| Crashed (step : LoadStep)                (* uncaught exception *)
| Serving (s : Settings).

Definition boot (penv : ProcessEnv) (files : string -> option string)
    (opens : string -> string -> string -> bool) : Boot :=
  let port := env_or penv "PORT" "3000" in
  let clientId := env_var penv "YAHOO_CLIENT_ID" in
  let clientSecret := env_var penv "YAHOO_CLIENT_SECRET" in
  if negb (truthy clientId) || negb (truthy clientSecret)
  then Exited 1 "YAHOO_CLIENT_ID and YAHOO_CLIENT_SECRET must be set in environment variables"
  else
    match clientId, clientSecret with
    | JString id, JString secret =>
        let keyFile := env_or penv "SSL_KEY_PATH" "key.pem" in
        let certFile := env_or penv "SSL_CERT_PATH" "cert.pem" in
        match files keyFile with
        | None => Crashed ReadKey
        | Some key =>
            match files certFile with
            | None => Crashed ReadCert
            | Some cert =>
                if opens key cert port
                then Serving {| listenPort := port;
                                yahooClientId := id;
                                yahooClientSecret := secret;
                                keyPath := keyFile;
                                certPath := certFile |}
                else Crashed Listen
            end
        end
    | _, _ =>
        Exited 1 "YAHOO_CLIENT_ID and YAHOO_CLIENT_SECRET must be set in environment variables"
    end.

(** ** Further vocabulary *)

(** The root of every URL the data routes call. *)
Definition apiBase : string := "https://fantasysports.yahooapis.com/fantasy/v2/".

(** The two kinds of call the module makes: the token exchange, and a helper
    call below [apiBase] carrying the rendering of a truthy token. *)
Definition exchange_call (env : Env) (rq : Request) : Prop :=
  exists code, rq = token_request env code.

Definition api_call (env : Env) (token : JsValue) (rq : Request) : Prop :=
  exists bearer path,
    truthy token = true /\ to_string env token = Normal bearer /\
    rq = bearer_request bearer (apiBase ++ path).

(** The property name an accessor reads, as a [TypeError] reports it. *)
Definition accessor_name (a : Accessor) : string :=
  match a with
  | Field name => name
  | Index i => index_name i
  end.

(** The statuses the handlers answer with. *)
Definition answers_of (r : Route) : list nat :=
  match r with
  | Auth => [302]
  | Callback => [200; 400; 500]
  | _ => [200; 401; 500]
  end.

Definition confirmation : Completion Response :=
  Normal {| status := 200;
            body := Text "Authentication successful! You can close this window." |}.

(** ** Sample data for the examples *)

(** A remote side whose token endpoint resolves with [d] and whose data API
    rejects every call. *)
Definition provider_returns (d : JsValue) : list Request -> Request -> Outcome :=
  fun _ rq =>
    match method rq with
    | POST => Resolved d
    | GET => Rejected "503"
    end.

(** A remote side that rejects every call. *)
Definition unreachable : list Request -> Request -> Outcome :=
  fun _ _ => Rejected "ECONNREFUSED".

(** A league list in the shape the fantasy API answers with, around the key
    of the first league. *)
Definition leagues_with_key (key : JsValue) : JsValue :=
  JObject [("fantasy_content",
    JObject [("users",
      JObject [("0",
        JObject [("user",
          JArray [JObject [("guid", JString "G")];
                  JObject [("games",
                    JObject [("0",
                      JObject [("game",
                        JArray [JObject [("game_key", JString "453")];
                                JObject [("leagues",
                                  JObject [("0",
                                    JObject [("league",
                                      JArray [JObject [("league_key", key)]])]);
                                           ("count", JNumber 1%Q)])]])]);
                             ("count", JNumber 1%Q)])]])]);
               ("count", JNumber 1%Q)])])].

Definition sample_leagues : JsValue := leagues_with_key (JString "453.l.1234").

Definition sample_scores : JsValue :=
  JObject [("scoreboard", JArray [JNumber 3%Q; JNumber 2%Q])].

(** A value that a template literal cannot render. *)
Definition unprintable : JsValue := JObject [("toString", JString "x")].

(** A remote side for the data API: the league list [d] on its URL, a
    scoreboard on every other GET, and the token [t] on POST. *)
Definition api_with (t d : JsValue) : list Request -> Request -> Outcome :=
  fun _ rq =>
    match method rq with
    | POST => Resolved (JObject [("access_token", t)])
    | GET =>
        if String.eqb (url rq) leaguesUrl
        then Resolved d
        else Resolved sample_scores
    end.

Definition fantasy_api : list Request -> Request -> Outcome :=
  api_with (JString "T") sample_leagues.

(** A remote side whose data API resolves the league list with [d] and
    rejects every other call. *)
Definition leagues_return (d : JsValue) : list Request -> Request -> Outcome :=
  fun _ rq =>
    match method rq with
    | POST => Rejected "400"
    | GET => if String.eqb (url rq) leaguesUrl then Resolved d else Rejected "404"
    end.

(** A remote side whose token endpoint resolves with [{}] and whose data API
    answers as [fantasy_api]. *)
Definition forgetful_api : list Request -> Request -> Outcome :=
  fun hist rq =>
    match method rq with
    | POST => Resolved (JObject [])
    | GET => fantasy_api hist rq
    end.

Definition with_token (t : JsValue) : World :=
  {| accessToken := t; outbound := []; console := [] |}.

Definition no_params : Req := {| query := [] |}.
Definition with_code (c : JsValue) : Req := {| query := [("code", c)] |}.
Definition with_week (v : JsValue) : Req := {| query := [("week", v)] |}.

(** The surroundings and the worlds the examples run in. *)
Definition env_unreachable : Env := sample_env unreachable.
Definition env_fantasy : Env := sample_env fantasy_api.
Definition env_empty_body : Env := sample_env (provider_returns (JObject [])).
Definition env_empty_token : Env :=
  sample_env (provider_returns (JObject [("access_token", JString "")])).
Definition env_object_token : Env :=
  sample_env (provider_returns
                (JObject [("access_token", JObject [("value", JString "T")])])).
Definition env_no_content : Env :=
  sample_env (leagues_return (JObject [("error", JString "unavailable")])).
Definition env_keyless : Env :=
  sample_env (api_with (JString "T") (leagues_with_key JUndefined)).
Definition env_unprintable_key : Env :=
  sample_env (api_with (JString "T") (leagues_with_key unprintable)).
Definition env_forgetful : Env := sample_env forgetful_api.

Definition sample_process_env : ProcessEnv :=
  [("YAHOO_CLIENT_ID", "client"); ("YAHOO_CLIENT_SECRET", "secret"); ("PORT", "")].

Definition sample_files : string -> option string :=
  fun path =>
    if String.eqb path "key.pem" then Some "KEY"
    else if String.eqb path "cert.pem" then Some "CERT"
    else None.

Definition always_opens : string -> string -> string -> bool :=
  fun _ _ _ => true.

(** * Properties *)

Example league_key_of_sample :
  league_key_of sample_leagues = Normal (JString "453.l.1234").
Proof. reflexivity. Qed.

Example callback_then_matchups :
  let env := sample_env fantasy_api in
  let w := serve env [(Callback, with_code (JString "abc"));
                      (NhlMatchups, with_week (JString "7"))] initial in
  accessToken w = JString "T" /\
  map url (outbound w) =
    [tokenUrl; leaguesUrl;
     "https://fantasysports.yahooapis.com/fantasy/v2/league/453.l.1234/scoreboard;week=7?format=json"].
Proof. split; reflexivity. Qed.

(** A callback that completes between the two awaits of /nhl-teams: the
    token it stores is the one the second helper call reads.  Here the
    exchange resolves with [{}], the token becomes [undefined], and the
    route, resumed, answers 500 after its league-list call alone. *)
Example callback_between_awaits :
  let s := interleave env_forgetful
             [Arrives NhlTeams no_params;
              Arrives Callback (with_code (JString "abc"));
              Settles 1;
              Settles 0]
             (idle (with_token (JString "T"))) in
  answered s =
    [confirmation;
     Normal {| status := 500; body := Text "Error fetching NHL team information" |}] /\
  map url (outbound (world s)) = [leaguesUrl; tokenUrl] /\
  accessToken (world s) = JUndefined.
Proof. repeat split; reflexivity. Qed.

Section Properties.

Variable env : Env.

Arguments league_key_of : simpl never.

Ltac worlds :=
  cbn [fst snd sent logged assigned caught rethrown accessToken outbound console].

(** Serving a task alone goes through [bind] and [try]/[catch] as a state
    and exception monad does. *)
Lemma alone_task_bind {A B : Type} (t : Task A) (k : A -> Js B) :
  alone_task env (bind_task t k) =
    match alone_task env t with
    | (Normal a, w') => alone env (k a) w'
    | (Throw e, w') => (Throw e, w')
    end.
Proof.
  induction t as [c w|rq w resume IH].
  - destruct c; reflexivity.
  - cbn [bind_task alone_task]. apply IH.
Qed.

Lemma alone_task_catch {A : Type} (t : Task A) (h : JsError -> Js A) :
  alone_task env (catch_task t h) =
    match alone_task env t with
    | (Normal a, w') => (Normal a, w')
    | (Throw e, w') => alone env (h e) w'
    end.
Proof.
  induction t as [c w|rq w resume IH].
  - destruct c; reflexivity.
  - cbn [catch_task alone_task]. apply IH.
Qed.

Lemma alone_bind {A B : Type} (m : Js A) (k : A -> Js B) (w : World) :
  alone env (bind m k) w =
    match alone env m w with
    | (Normal a, w') => alone env (k a) w'
    | (Throw e, w') => (Throw e, w')
    end.
Proof. apply alone_task_bind. Qed.

Lemma alone_try_catch {A : Type} (m : Js A) (h : JsError -> Js A) (w : World) :
  alone env (try_catch m h) w =
    match alone env m w with
    | (Normal a, w') => (Normal a, w')
    | (Throw e, w') => alone env (h e) w'
    end.
Proof. apply alone_task_catch. Qed.

Lemma alone_axios (rq : Request) (w : World) :
  alone env (axios rq) w =
    match network env (outbound w) rq with
    | Resolved d => (Normal d, sent rq w)
    | Rejected detail => (Throw (AxiosError detail), sent rq w)
    end.
Proof.
  unfold alone, axios. cbn [alone_task].
  destruct (network env (outbound w) rq); reflexivity.
Qed.

(** A task that waits keeps waiting for the same call under [bind] and
    [try]/[catch], and is resumed inside them. *)
Lemma awaited_bind {A B : Type} (t : Task A) (k : A -> Js B) (rq : Request) :
  awaited t = Some rq -> awaited (bind_task t k) = Some rq.
Proof. destruct t; [discriminate|exact (fun H => H)]. Qed.

Lemma resumed_bind {A B : Type} (t : Task A) (k : A -> Js B) (rq : Request)
    (o : Outcome) (w' : World) :
  awaited t = Some rq ->
  resumed (bind_task t k) o w' = bind_task (resumed t o w') k.
Proof. destruct t; [discriminate|reflexivity]. Qed.

Lemma awaited_catch {A : Type} (t : Task A) (h : JsError -> Js A) (rq : Request) :
  awaited t = Some rq -> awaited (catch_task t h) = Some rq.
Proof. destruct t; [discriminate|exact (fun H => H)]. Qed.

Lemma resumed_catch {A : Type} (t : Task A) (h : JsError -> Js A) (rq : Request)
    (o : Outcome) (w' : World) :
  awaited t = Some rq ->
  resumed (catch_task t h) o w' = catch_task (resumed t o w') h.
Proof. destruct t; [discriminate|reflexivity]. Qed.

(** Serving alone is one of the schedules: the invocation arrives and each
    of its calls settles before anything else happens. *)
Lemma without_last {A : Type} (l : list A) (x : A) :
  without (length l) (l ++ [x]) = l.
Proof.
  induction l as [|y l IH]; cbn; [reflexivity|]. rewrite IH. reflexivity.
Qed.

Lemma alone_is_a_schedule (t : Task Response) (others : list Suspended)
    (given : list (Completion Response)) :
  exists n,
    interleave env (repeat (Settles (length others)) n) (advance env t others given)
    = {| world := snd (alone_task env t);
         waiting := others;
         answered := (given ++ [fst (alone_task env t)])%list |}.
Proof.
  induction t as [c w|rq w resume IH].
  - exists 0. reflexivity.
  - destruct (IH (network env (outbound w) rq) (sent rq w)) as [n Hn].
    exists (S n). cbn [repeat interleave fold_left advance alone_task].
    unfold interleave in Hn. rewrite <- Hn. f_equal.
    unfold step. cbn [waiting world answered].
    rewrite nth_error_app2 by apply Nat.le_refl.
    rewrite Nat.sub_diag. cbn [nth_error continuation settlement].
    rewrite without_last. reflexivity.
Qed.

(** The helper as a task. *)
Lemma helper_absent (u : string) (w : World) :
  truthy (accessToken w) = false ->
  makeAuthenticatedRequest env u w = Ret (Throw (Error "Not authenticated")) w.
Proof.
  intros H. unfold makeAuthenticatedRequest, bind, read_accessToken.
  cbn [bind_task]. rewrite H. reflexivity.
Qed.

Lemma helper_unprintable (u : string) (w : World) (e : JsError) :
  truthy (accessToken w) = true ->
  to_string env (accessToken w) = Throw e ->
  makeAuthenticatedRequest env u w = Ret (Throw e) (logged helper_label e w).
Proof.
  intros H Hs.
  unfold makeAuthenticatedRequest, bind, read_accessToken, try_catch, lift.
  cbn [bind_task]. rewrite H. cbn [negb bind_task]. rewrite Hs. reflexivity.
Qed.

Lemma helper_awaits (u : string) (w : World) (bearer : string) :
  truthy (accessToken w) = true ->
  to_string env (accessToken w) = Normal bearer ->
  awaited (makeAuthenticatedRequest env u w) = Some (bearer_request bearer u) /\
  forall o w',
    resumed (makeAuthenticatedRequest env u w) o w' =
      match o with
      | Resolved d => Ret (Normal d) w'
      | Rejected detail =>
          Ret (Throw (AxiosError detail))
              (logged helper_label (AxiosError detail) w')
      end.
Proof.
  intros H Hs.
  unfold makeAuthenticatedRequest, bind, read_accessToken, try_catch, lift.
  cbn [bind_task]. rewrite H. cbn [negb bind_task]. rewrite Hs.
  cbn [bind_task axios catch_task awaited resumed].
  split; [reflexivity|]. intros [detail|d] w'; reflexivity.
Qed.

(** The helper served alone. *)
Lemma helper_alone_absent (u : string) (w : World) :
  truthy (accessToken w) = false ->
  alone env (makeAuthenticatedRequest env u) w =
    (Throw (Error "Not authenticated"), w).
Proof.
  intros H. unfold alone. rewrite (helper_absent u w H). reflexivity.
Qed.

Lemma helper_alone_present (u : string) (w : World) :
  truthy (accessToken w) = true ->
  alone env (makeAuthenticatedRequest env u) w =
    match to_string env (accessToken w) with
    | Throw e => (Throw e, logged helper_label e w)
    | Normal bearer =>
        let rq := bearer_request bearer u in
        match network env (outbound w) rq with
        | Resolved d => (Normal d, sent rq w)
        | Rejected detail =>
            (Throw (AxiosError detail),
             logged helper_label (AxiosError detail) (sent rq w))
        end
    end.
Proof.
  intros H. unfold alone.
  destruct (to_string env (accessToken w)) as [bearer|e] eqn:Hs.
  - unfold makeAuthenticatedRequest, bind, read_accessToken, try_catch, lift.
    cbn [bind_task]. rewrite H. cbn [negb bind_task]. rewrite Hs.
    cbn [bind_task axios catch_task alone_task].
    destruct (network env (outbound w) _); reflexivity.
  - rewrite (helper_unprintable u w H Hs). reflexivity.
Qed.

(** The guard every data route starts with. *)
Lemma guard_present (K : Js Response) (w : World) :
  truthy (accessToken w) = true ->
  (token <- read_accessToken ;;
   if negb (truthy token) then ret not_authenticated else K) w = K w.
Proof.
  intros H. unfold bind, read_accessToken. cbn [bind_task]. rewrite H. reflexivity.
Qed.

Lemma guard_absent (K : Js Response) (w : World) :
  truthy (accessToken w) = false ->
  (token <- read_accessToken ;;
   if negb (truthy token) then ret not_authenticated else K) w
  = Ret (Normal not_authenticated) w.
Proof.
  intros H. unfold bind, read_accessToken. cbn [bind_task]. rewrite H. reflexivity.
Qed.

Ltac open_route r Ht :=
  destruct r; try discriminate; cbn [handle];
  unfold test, nhl_leagues, nhl_matchups, nhl_teams;
  rewrite (guard_present _ _ Ht); cbn zeta;
  unfold try_catch, bind, lift, ret, console_error.

(** A data route invoked without a token. *)
Lemma route_absent (r : Route) (req : Req) (w : World) :
  is_data_route r = true ->
  truthy (accessToken w) = false ->
  handle env r req w = Ret (Normal not_authenticated) w.
Proof.
  intros Hd Ht.
  destruct r; try discriminate; cbn [handle];
    unfold test, nhl_leagues, nhl_matchups, nhl_teams;
    apply (guard_absent _ _ Ht).
Qed.

(** A data route whose token cannot be rendered. *)
Lemma route_unprintable (r : Route) (req : Req) (w : World) (e : JsError) :
  is_data_route r = true ->
  truthy (accessToken w) = true ->
  to_string env (accessToken w) = Throw e ->
  handle env r req w = Ret (failed r) (rethrown r e w).
Proof.
  intros Hd Ht Hs. open_route r Ht;
    rewrite (helper_unprintable _ w Ht Hs); reflexivity.
Qed.

(** A data route up to its first await, and resumed on a rejection. *)
Lemma route_first (r : Route) (req : Req) (w : World) (bearer : string) :
  is_data_route r = true ->
  truthy (accessToken w) = true ->
  to_string env (accessToken w) = Normal bearer ->
  awaited (handle env r req w) = Some (bearer_request bearer (first_url r)) /\
  (forall detail w',
     resumed (handle env r req w) (Rejected detail) w' =
       Ret (failed r) (rethrown r (AxiosError detail) w')) /\
  (league_scoped r = false ->
   forall d w', resumed (handle env r req w) (Resolved d) w' = Ret (relayed d) w').
Proof.
  intros Hd Ht Hs.
  open_route r Ht;
    (match goal with
     | |- context [makeAuthenticatedRequest env ?u w] =>
         destruct (helper_awaits u w Ht Hs) as [Ha Hr]
     end;
     cbn [first_url];
     split; [apply awaited_catch, awaited_bind; exact Ha|];
     split; [intros detail w' | intros Hl d w'; try discriminate Hl];
     rewrite (@resumed_catch _ _ _ _ _ _ (@awaited_bind _ _ _ _ _ Ha)),
             (@resumed_bind _ _ _ _ _ _ _ Ha), Hr;
     reflexivity).
Qed.

(** A league-scoped route resumed after its league list resolved with
    [leaguesData], in the world [w1] of that moment. *)
Lemma route_second (r : Route) (req : Req) (w : World) (bearer : string)
    (leaguesData : JsValue) (w1 : World) :
  league_scoped r = true ->
  truthy (accessToken w) = true ->
  to_string env (accessToken w) = Normal bearer ->
  let second := resumed (handle env r req w) (Resolved leaguesData) w1 in
  match league_key_of leaguesData with
  | Throw e => second = Ret (failed r) (caught r e w1)
  | Normal key =>
      match final_url env r req key with
      | Throw e => second = Ret (failed r) (caught r e w1)
      | Normal u =>
          if truthy (accessToken w1) then
            match to_string env (accessToken w1) with
            | Throw e => second = Ret (failed r) (rethrown r e w1)
            | Normal bearer1 =>
                awaited second = Some (bearer_request bearer1 u) /\
                forall o w2,
                  resumed second o w2 =
                    match o with
                    | Resolved d => Ret (relayed d) w2
                    | Rejected detail =>
                        Ret (failed r) (rethrown r (AxiosError detail) w2)
                    end
            end
          else second = Ret (failed r) (caught r (Error "Not authenticated") w1)
      end
  end.
Proof.
  intros Hl Ht Hs. cbn zeta.
  open_route r Ht;
    (destruct (helper_awaits leaguesUrl w Ht Hs) as [Ha Hr];
     rewrite (@resumed_catch _ _ _ _ _ _ (@awaited_bind _ _ _ _ _ Ha)),
             (@resumed_bind _ _ _ _ _ _ _ Ha), Hr;
     cbn [bind_task final_url];
     destruct (league_key_of leaguesData) as [key|e]; [|reflexivity];
     cbn [bind_task];
     match goal with
     | |- match ?c with Normal _ => _ | Throw _ => _ end =>
         destruct c as [u|e] eqn:Hu; [|reflexivity]
     end;
     destruct (truthy (accessToken w1)) eqn:Ht1;
     [ destruct (to_string env (accessToken w1)) as [bearer1|e] eqn:Hs1;
       [ destruct (helper_awaits u w1 Ht1 Hs1) as [Ha1 Hr1];
         split; [apply awaited_catch, awaited_bind; exact Ha1|];
         intros o w2;
         rewrite (@resumed_catch _ _ _ _ _ _ (@awaited_bind _ _ _ _ _ Ha1)),
                 (@resumed_bind _ _ _ _ _ _ _ Ha1), Hr1;
         destruct o; reflexivity
       | rewrite (helper_unprintable u w1 Ht1 Hs1); reflexivity ]
     | rewrite (helper_absent u w1 Ht1); reflexivity ]).
Qed.

(** The data routes served alone. *)
Lemma alone_guard_present (K : Js Response) (w : World) :
  truthy (accessToken w) = true ->
  alone env (token <- read_accessToken ;;
             if negb (truthy token) then ret not_authenticated else K) w
  = alone env K w.
Proof. intros H. unfold alone. rewrite (guard_present _ _ H). reflexivity. Qed.

Lemma data_route_absent (r : Route) (req : Req) (w : World) :
  is_data_route r = true ->
  truthy (accessToken w) = false ->
  alone env (handle env r req) w = (Normal not_authenticated, w).
Proof.
  intros Hd Ht. unfold alone. rewrite (route_absent r req w Hd Ht). reflexivity.
Qed.

Ltac open_alone r Ht :=
  destruct r; try discriminate; cbn [handle];
  unfold test, nhl_leagues, nhl_matchups, nhl_teams;
  rewrite (alone_guard_present _ _ Ht); cbn zeta;
  rewrite alone_try_catch, alone_bind, (helper_alone_present _ _ Ht).

Lemma single_call_route (r : Route) (req : Req) (w : World) :
  is_data_route r = true -> league_scoped r = false ->
  truthy (accessToken w) = true ->
  alone env (handle env r req) w =
    match to_string env (accessToken w) with
    | Throw e => (failed r, rethrown r e w)
    | Normal bearer =>
        let rq := bearer_request bearer (first_url r) in
        match network env (outbound w) rq with
        | Resolved d => (relayed d, sent rq w)
        | Rejected detail =>
            (failed r, rethrown r (AxiosError detail) (sent rq w))
        end
    end.
Proof.
  intros Hd Hs Ht.
  open_alone r Ht;
    (destruct (to_string env (accessToken w)) as [bearer|e]; [|reflexivity];
     cbn zeta; cbn [first_url];
     destruct (network env (outbound w) _); reflexivity).
Qed.

Lemma league_scoped_route (r : Route) (req : Req) (w : World) :
  league_scoped r = true ->
  truthy (accessToken w) = true ->
  alone env (handle env r req) w =
    match to_string env (accessToken w) with
    | Throw e => (failed r, rethrown r e w)
    | Normal bearer =>
        let rq1 := bearer_request bearer leaguesUrl in
        match network env (outbound w) rq1 with
        | Rejected detail =>
            (failed r, rethrown r (AxiosError detail) (sent rq1 w))
        | Resolved leaguesData =>
            match league_key_of leaguesData with
            | Throw e => (failed r, caught r e (sent rq1 w))
            | Normal leagueKey =>
                match final_url env r req leagueKey with
                | Throw e => (failed r, caught r e (sent rq1 w))
                | Normal u =>
                    let rq2 := bearer_request bearer u in
                    match network env (outbound w ++ [rq1]) rq2 with
                    | Resolved d => (relayed d, sent rq2 (sent rq1 w))
                    | Rejected detail =>
                        (failed r,
                         rethrown r (AxiosError detail) (sent rq2 (sent rq1 w)))
                    end
                end
            end
        end
    end.
Proof.
  intros Hs Ht.
  open_alone r Ht;
    (destruct (to_string env (accessToken w)) as [bearer|e] eqn:Hb; [|reflexivity];
     cbn zeta;
     destruct (network env (outbound w) _) as [detail|leaguesData]; [reflexivity|];
     rewrite alone_bind; unfold lift at 1; unfold alone at 1; cbn [alone_task];
     destruct (league_key_of leaguesData) as [leagueKey|e]; [|reflexivity];
     rewrite alone_bind; unfold lift at 1; unfold alone at 1;
     cbn [alone_task final_url];
     match goal with
     | |- context [match ?c with Normal _ => _ | Throw _ => _ end] =>
         destruct c as [u|e] eqn:Hu; [|reflexivity]
     end;
     rewrite alone_bind, helper_alone_present by exact Ht;
     cbn [sent accessToken]; rewrite Hb; cbn zeta;
     change (outbound (sent (bearer_request bearer leaguesUrl) w))
       with (outbound w ++ [bearer_request bearer leaguesUrl])%list;
     destruct (network env (outbound w ++ _) _); reflexivity).
Qed.

(** The callback as a task and served alone. *)
Lemma callback_without_code (req : Req) (w : World) :
  is_string (query_param req "code") = false ->
  callback env req w =
    Ret (Normal {| status := 400; body := Text "Invalid authorization code" |}) w.
Proof.
  intros H. unfold callback.
  destruct (query_param req "code"); try reflexivity. discriminate.
Qed.

Lemma callback_awaits (req : Req) (w : World) (code : string) :
  query_param req "code" = JString code ->
  awaited (callback env req w) = Some (token_request env code) /\
  forall o w',
    resumed (callback env req w) o w' =
      let failure := Normal {| status := 500; body := Text "Authentication failed" |} in
      match o with
      | Rejected detail =>
          Ret failure (logged "Error getting token:" (AxiosError detail) w')
      | Resolved d =>
          match get_field d "access_token" with
          | Throw e => Ret failure (logged "Error getting token:" e w')
          | Normal token => Ret confirmation (assigned token w')
          end
      end.
Proof.
  intros Hc. unfold callback. rewrite Hc.
  unfold try_catch, bind, axios, lift, write_accessToken, console_error, ret.
  cbn [bind_task catch_task awaited resumed].
  split; [reflexivity|].
  intros [detail|d] w'; cbn zeta; cbn [bind_task catch_task]; [reflexivity|].
  destruct (get_field d "access_token"); reflexivity.
Qed.

Lemma callback_with_code (req : Req) (w : World) (code : string) :
  query_param req "code" = JString code ->
  alone env (callback env req) w =
    let rq := token_request env code in
    let failure := Normal {| status := 500; body := Text "Authentication failed" |} in
    match network env (outbound w) rq with
    | Rejected detail =>
        (failure, logged "Error getting token:" (AxiosError detail) (sent rq w))
    | Resolved d =>
        match get_field d "access_token" with
        | Throw e => (failure, logged "Error getting token:" e (sent rq w))
        | Normal token => (confirmation, assigned token (sent rq w))
        end
    end.
Proof.
  intros Hc. unfold alone, callback. rewrite Hc.
  unfold try_catch, bind, axios, lift, write_accessToken, console_error, ret.
  cbn [bind_task catch_task alone_task]. cbn zeta.
  destruct (network env (outbound w) _) as [detail|d];
    cbn [bind_task catch_task alone_task]; [reflexivity|].
  destruct (get_field d "access_token"); reflexivity.
Qed.

Lemma callback_alone_without_code (req : Req) (w : World) :
  is_string (query_param req "code") = false ->
  alone env (callback env req) w =
    (Normal {| status := 400; body := Text "Invalid authorization code" |}, w).
Proof.
  intros H. unfold alone. rewrite (callback_without_code req w H). reflexivity.
Qed.

Lemma callback_or_not (r : Route) : r = Callback \/ r <> Callback.
Proof. destruct r; (left; reflexivity) || (right; discriminate). Qed.

(** The callback changes [accessToken] only when it answers with the
    confirmation, and the value it stores is then the [access_token] read
    from the response body. *)
Lemma callback_effect (req : Req) (w : World) :
  (fst (alone env (callback env req) w) <> confirmation /\
   accessToken (snd (alone env (callback env req) w)) = accessToken w) \/
  exists code d token,
    query_param req "code" = JString code /\
    network env (outbound w) (token_request env code) = Resolved d /\
    get_field d "access_token" = Normal token /\
    fst (alone env (callback env req) w) = confirmation /\
    accessToken (snd (alone env (callback env req) w)) = token.
Proof.
  destruct (is_string (query_param req "code")) eqn:Hc.
  - destruct (query_param req "code") as [| | | |code| |] eqn:Hq; try discriminate.
    rewrite (callback_with_code req w Hq). cbn zeta.
    destruct (network env (outbound w) _) as [detail|d] eqn:Hn;
      [left; split; [discriminate|reflexivity]|].
    destruct (get_field d "access_token") as [token|e] eqn:Hg;
      [|left; split; [discriminate|reflexivity]].
    right. exists code, d, token. repeat split; assumption.
  - rewrite (callback_alone_without_code req w Hc).
    left. split; [discriminate|reflexivity].
Qed.

Lemma final_url_below_api (r : Route) (req : Req) (k : JsValue) (u : string) :
  final_url env r req k = Normal u -> exists path, u = apiBase ++ path.
Proof.
  destruct r; cbn [final_url];
    unfold gamesUrl, leaguesUrl, scoreboardUrl, teamsUrl, apiBase;
    try (intros H; injection H as <-; eexists; reflexivity).
  - destruct (to_string env k) as [ks|]; [|discriminate].
    destruct (to_string env (week_of req)) as [wk|]; [|discriminate].
    intros H; injection H as <-.
    exists ("league/" ++ ks ++ "/scoreboard;week=" ++ wk ++ "?format=json").
    reflexivity.
  - destruct (to_string env k) as [ks|]; [|discriminate].
    intros H; injection H as <-.
    exists ("league/" ++ ks ++ "/teams?format=json"). reflexivity.
Qed.

Lemma first_url_below_api (r : Route) : exists path, first_url r = apiBase ++ path.
Proof. destruct r; eexists; reflexivity. Qed.

(** What one invocation, served alone, does to the world: the token is
    touched by the callback only, and the calls added are the token exchange
    or helper calls carrying the token held at entry. *)
Lemma route_keeps_token (r : Route) (req : Req) (w : World) :
  r <> Callback ->
  accessToken (snd (alone env (handle env r req) w)) = accessToken w.
Proof.
  intros Hr.
  destruct (is_data_route r) eqn:Hd.
  - destruct (truthy (accessToken w)) eqn:Ht.
    + destruct (league_scoped r) eqn:Hs.
      * rewrite (league_scoped_route r req w Hs Ht).
        destruct (to_string env (accessToken w)); [|reflexivity]. cbn zeta.
        destruct (network env (outbound w) _) as [detail|leaguesData]; [reflexivity|].
        destruct (league_key_of leaguesData) as [k|e]; [|reflexivity].
        destruct (final_url env r req k); [|reflexivity]. cbn zeta.
        destruct (network env (outbound w ++ _) _); reflexivity.
      * rewrite (single_call_route r req w Hd Hs Ht).
        destruct (to_string env (accessToken w)); [|reflexivity]. cbn zeta.
        destruct (network env (outbound w) _); reflexivity.
    + rewrite (data_route_absent r req w Hd Ht). reflexivity.
  - destruct r; try discriminate; [reflexivity|contradiction].
Qed.

Lemma invocation_calls (r : Route) (req : Req) (w : World) :
  exists issued,
    outbound (snd (alone env (handle env r req) w)) = (outbound w ++ issued)%list /\
    length issued <= 2 /\
    Forall (fun rq => exchange_call env rq \/ api_call env (accessToken w) rq)
           issued /\
    (truthy (accessToken w) = false -> Forall (exchange_call env) issued).
Proof.
  assert (Hnone : exists issued : list Request,
             outbound w = (outbound w ++ issued)%list /\
             length issued <= 2 /\
             Forall (fun rq => exchange_call env rq \/
                               api_call env (accessToken w) rq) issued /\
             (truthy (accessToken w) = false -> Forall (exchange_call env) issued)).
  { exists []. rewrite app_nil_r. cbn. repeat split; auto. }
  destruct (is_data_route r) eqn:Hd.
  - destruct (truthy (accessToken w)) eqn:Ht.
    + destruct (to_string env (accessToken w)) as [bearer|e] eqn:Hb.
      2:{ unfold alone. rewrite (route_unprintable r req w Hd Ht Hb). exact Hnone. }
      assert (Hapi : forall k u, final_url env r req k = Normal u ->
                 api_call env (accessToken w) (bearer_request bearer u)).
      { intros k u Hu. destruct (final_url_below_api r req k Hu) as [path ->].
        exists bearer, path. auto. }
      assert (Hfirst : api_call env (accessToken w)
                         (bearer_request bearer (first_url r))).
      { destruct (first_url_below_api r) as [path ->]. exists bearer, path. auto. }
      destruct (league_scoped r) eqn:Hs.
      * assert (Hlist : first_url r = leaguesUrl)
          by (destruct r; try discriminate; reflexivity).
        rewrite Hlist in Hfirst.
        rewrite (league_scoped_route r req w Hs Ht), Hb. cbn zeta.
        destruct (network env (outbound w) _) as [detail|leaguesData]; worlds.
        { eexists. split; [reflexivity|]. cbn. repeat split; auto; discriminate. }
        destruct (league_key_of leaguesData) as [k|e]; worlds.
        2:{ eexists. split; [reflexivity|]. cbn. repeat split; auto; discriminate. }
        destruct (final_url env r req k) as [u|e] eqn:Hu; worlds.
        2:{ eexists. split; [reflexivity|]. cbn. repeat split; auto; discriminate. }
        specialize (Hapi k u Hu).
        destruct (network env (outbound w ++ _) _); worlds;
          rewrite <- app_assoc; eexists; (split; [reflexivity|]); cbn;
          repeat split; auto; discriminate.
      * rewrite (single_call_route r req w Hd Hs Ht), Hb. cbn zeta.
        destruct (network env (outbound w) _); worlds;
          eexists; (split; [reflexivity|]); cbn; repeat split; auto; discriminate.
    + rewrite (data_route_absent r req w Hd Ht). exact Hnone.
  - destruct r; try discriminate.
    + exact Hnone.
    + cbn [handle]. destruct (is_string (query_param req "code")) eqn:Hc.
      * destruct (query_param req "code") as [| | | |code| |] eqn:Hq; try discriminate.
        assert (Hx : exchange_call env (token_request env code))
          by (exists code; reflexivity).
        rewrite (callback_with_code req w Hq). cbn zeta.
        destruct (network env (outbound w) _) as [detail|d]; worlds.
        { eexists. split; [reflexivity|]. cbn. repeat split; auto. }
        destruct (get_field d "access_token"); worlds;
          eexists; (split; [reflexivity|]); cbn; repeat split; auto.
      * rewrite (callback_alone_without_code req w Hc). exact Hnone.
Qed.

Lemma serve_calls (invocations : list (Route * Req)) (w : World) :
  exists issued,
    outbound (serve env invocations w) = (outbound w ++ issued)%list /\
    length issued <= 2 * length invocations /\
    Forall (fun rq => exchange_call env rq \/
                      exists token, api_call env token rq) issued.
Proof.
  revert w. induction invocations as [|[r req] rest IH]; intros w.
  - exists []. rewrite app_nil_r. cbn. auto.
  - cbn [serve].
    destruct (invocation_calls r req w) as [i1 [Ho1 [Hl1 [Hf1 _]]]].
    destruct (IH (snd (alone env (handle env r req) w))) as [i2 [Ho2 [Hl2 Hf2]]].
    exists (i1 ++ i2)%list. rewrite Ho2, Ho1, app_assoc.
    split; [reflexivity|]. split.
    + rewrite length_app. cbn [length]. lia.
    + apply Forall_app. split; [|exact Hf2].
      rewrite Forall_forall in *. intros rq Hin.
      destruct (Hf1 rq Hin) as [H|H]; [left; exact H|right; eauto].
Qed.

Lemma serve_app (first second : list (Route * Req)) (w : World) :
  serve env (first ++ second) w = serve env second (serve env first w).
Proof.
  revert w. induction first as [|[r req] rest IH]; intros w.
  - reflexivity.
  - rewrite <- app_comm_cons. cbn [serve]. apply IH.
Qed.

Lemma ends_with_cases {A : Type} (t : Task A) (c : Completion A) :
  ends_with t c ->
  (exists w, t = Ret c w) \/
  (exists rq o w', awaited t = Some rq /\ ends_with (resumed t o w') c).
Proof.
  intros H. destruct H as [c w|rq w resume o w' c H].
  - left. exists w. reflexivity.
  - right. exists rq, o, w'. split; [reflexivity|exact H].
Qed.

Lemma ends_with_ret {A : Type} (c c' : Completion A) (w : World) :
  ends_with (Ret c w) c' -> c' = c.
Proof.
  intros H. destruct (ends_with_cases H) as [[w0 E]|[rq [o [w' [E _]]]]].
  - injection E as -> _. reflexivity.
  - discriminate E.
Qed.

(** C4. A callback whose [code] is missing or not a string answers 400, and
    the world is the one it started from: no call is issued and the token is
    untouched. *)
Theorem callback_invalid_code (req : Req) (w : World) :
  is_string (query_param req "code") = false ->
  fst (alone env (callback env req) w) =
    Normal {| status := 400; body := Text "Invalid authorization code" |} /\
  outbound (snd (alone env (callback env req) w)) = outbound w /\
  accessToken (snd (alone env (callback env req) w)) = accessToken w /\
  snd (alone env (callback env req) w) = w /\
  awaited (callback env req w) = None.
Proof.
  intros H. rewrite (callback_alone_without_code req w H).
  rewrite (callback_without_code req w H). cbn. auto.
Qed.

(** C5. Each of the four data routes, invoked while the token is absent
    (falsy), answers 401 with the fixed text and issues no outbound call. *)
Theorem data_route_unauthenticated (r : Route) (req : Req) (w : World) :
  is_data_route r = true ->
  truthy (accessToken w) = false ->
  fst (alone env (handle env r req) w) =
    Normal {| status := 401;
              body := Text "Not authenticated. Please authenticate first." |} /\
  outbound (snd (alone env (handle env r req) w)) = outbound w /\
  snd (alone env (handle env r req) w) = w /\
  awaited (handle env r req w) = None.
Proof.
  intros Hd Ht. rewrite (data_route_absent r req w Hd Ht).
  rewrite (route_absent r req w Hd Ht). cbn. auto.
Qed.

(** C6. The helper, called while the token is absent (falsy), throws
    [Error('Not authenticated')] at once and issues no outbound call. *)
Theorem helper_unauthenticated (u : string) (w : World) :
  truthy (accessToken w) = false ->
  fst (alone env (makeAuthenticatedRequest env u) w)
    = Throw (Error "Not authenticated") /\
  outbound (snd (alone env (makeAuthenticatedRequest env u) w)) = outbound w /\
  snd (alone env (makeAuthenticatedRequest env u) w) = w /\
  awaited (makeAuthenticatedRequest env u w) = None.
Proof.
  intros Ht. rewrite (helper_alone_absent u w Ht).
  rewrite (helper_absent u w Ht). cbn. auto.
Qed.

(** C1 (amended). A callback with a string [code] whose token exchange is
    rejected by axios (network error, status outside 2xx), or resolves with a
    body that is [null] or [undefined], answers 500 with the text
    "Authentication failed" and leaves the token as it was. *)
Theorem callback_exchange_failed (req : Req) (w : World) (code : string) :
  query_param req "code" = JString code ->
  (exists detail,
     network env (outbound w) (token_request env code) = Rejected detail) \/
  network env (outbound w) (token_request env code) = Resolved JNull \/
  network env (outbound w) (token_request env code) = Resolved JUndefined ->
  fst (alone env (callback env req) w) =
    Normal {| status := 500; body := Text "Authentication failed" |} /\
  accessToken (snd (alone env (callback env req) w)) = accessToken w.
Proof.
  intros Hc Hn. rewrite (callback_with_code req w Hc). cbn zeta.
  destruct Hn as [[detail Hn]|[Hn|Hn]]; rewrite Hn; cbn; auto.
Qed.

(** What an invocation that is not answered with the confirmation leaves of
    the token. *)
Lemma unconfirmed_keeps_token (r : Route) (req : Req) (w : World) :
  fst (alone env (handle env r req) w) <> confirmation ->
  accessToken (snd (alone env (handle env r req) w)) = accessToken w.
Proof.
  intros Hres.
  destruct (callback_or_not r) as [->|Hr];
    [|exact (route_keeps_token req w Hr)].
  cbn [handle] in *.
  destruct (callback_effect req w)
    as [[_ Hsame]|[code [d [token [_ [_ [_ [Hr _]]]]]]]].
  - exact Hsame.
  - contradiction.
Qed.

(** C2 (amended). The token changes only in an invocation that is answered
    with the callback's confirmation; every other invocation (/auth, the data
    routes, a callback answered 400 or 500) leaves it as it was.  When every
    token exchange that resolves carries a truthy [access_token], a present
    token stays present through every sequence of invocations. *)
Theorem token_stays_present (invocations : list (Route * Req)) (w : World) :
  (forall hist code d token,
     network env hist (token_request env code) = Resolved d ->
     get_field d "access_token" = Normal token ->
     truthy token = true) ->
  truthy (accessToken w) = true ->
  truthy (accessToken (serve env invocations w)) = true /\
  (forall r req w0,
     fst (alone env (handle env r req) w0) <>
       Normal {| status := 200;
                 body := Text "Authentication successful! You can close this window." |} ->
     accessToken (snd (alone env (handle env r req) w0)) = accessToken w0).
Proof.
  intros Hnet Ht. split.
  - revert w Ht. induction invocations as [|[r req] rest IH]; intros w Ht.
    + exact Ht.
    + cbn [serve]. apply IH.
      destruct (callback_or_not r) as [->|Hr];
        [|rewrite (route_keeps_token req w Hr); exact Ht].
      cbn [handle].
      destruct (callback_effect req w)
        as [[_ Hsame]|[code [d [token [_ [Hn [Hg [_ Hw]]]]]]]].
      * rewrite Hsame. exact Ht.
      * rewrite Hw. exact (Hnet _ _ _ _ Hn Hg).
  - intros r req w0. apply unconfirmed_keeps_token.
Qed.

(** C3 (amended). A callback with a string [code] whose token exchange
    resolves with a body whose [access_token] is the non-empty string [T]
    answers 200 and stores [T].  From then on, through every sequence of
    invocations none of which is answered with the callback's confirmation
    (so: until another callback replaces the token), the token is [T], every
    GET issued carries [Authorization: Bearer T], and a call of the helper
    issues exactly that GET. *)
Theorem callback_success_bearer (req : Req) (w : World) (code : string)
    (d : JsValue) (T : string) :
  query_param req "code" = JString code ->
  network env (outbound w) (token_request env code) = Resolved d ->
  get_field d "access_token" = Normal (JString T) ->
  T <> "" ->
  let w1 := snd (alone env (callback env req) w) in
  fst (alone env (callback env req) w) =
    Normal {| status := 200;
              body := Text "Authentication successful! You can close this window." |} /\
  accessToken w1 = JString T /\
  forall invocations,
    ~ In (Normal {| status := 200;
                    body := Text "Authentication successful! You can close this window." |})
         (answers env invocations w1) ->
    let w2 := serve env invocations w1 in
    accessToken w2 = JString T /\
    (exists issued,
       outbound w2 = (outbound w1 ++ issued)%list /\
       Forall (fun rq =>
                 method rq = GET ->
                 headers rq =
                   [("Authorization", ("Bearer " ++ T)%string);
                    ("Content-Type", "application/x-www-form-urlencoded")])
              issued) /\
    forall u,
      outbound (snd (alone env (makeAuthenticatedRequest env u) w2)) =
        (outbound w2 ++
           [{| method := GET; url := u;
               headers := [("Authorization", ("Bearer " ++ T)%string);
                           ("Content-Type", "application/x-www-form-urlencoded")];
               data := None |}])%list.
Proof.
  intros Hc Hn Hg HT. cbn zeta.
  rewrite (callback_with_code req w Hc). cbn zeta. rewrite Hn, Hg. worlds.
  split; [reflexivity|]. split; [reflexivity|].
  set (w1 := assigned (JString T) (sent (token_request env code) w)).
  assert (Hrun : forall invocations w0,
             accessToken w0 = JString T ->
             ~ In confirmation (answers env invocations w0) ->
             accessToken (serve env invocations w0) = JString T /\
             exists issued,
               outbound (serve env invocations w0) = (outbound w0 ++ issued)%list /\
               Forall (fun rq => exchange_call env rq \/
                                 api_call env (JString T) rq) issued).
  { induction invocations as [|[r req0] rest IH]; intros w0 Hw0 Hans.
    - split; [exact Hw0|]. exists []. rewrite app_nil_r. auto.
    - cbn [serve answers] in *.
      assert (Hk : accessToken (snd (alone env (handle env r req0) w0)) = JString T).
      { rewrite unconfirmed_keeps_token; [exact Hw0|].
        intros E. apply Hans. left. exact E. }
      destruct (IH _ Hk) as [Ht [i2 [Ho2 Hf2]]].
      { intros Hin. apply Hans. right. exact Hin. }
      destruct (invocation_calls r req0 w0) as [i1 [Ho1 [_ [Hf1 _]]]].
      rewrite Hw0 in Hf1.
      split; [exact Ht|]. exists (i1 ++ i2)%list.
      rewrite Ho2, Ho1, app_assoc. split; [reflexivity|].
      apply Forall_app. split; assumption. }
  intros invocations Hans.
  destruct (Hrun invocations w1 eq_refl Hans) as [Ht [issued [Ho Hb]]].
  split; [exact Ht|]. split.
  - exists issued. split; [exact Ho|].
    rewrite Forall_forall in *. intros rq Hin.
    destruct (Hb rq Hin) as [[code' ->]|[bearer [path [_ [Hs ->]]]]].
    + discriminate.
    + cbn in Hs. injection Hs as <-. reflexivity.
  - intros u.
    assert (Htr : truthy (accessToken (serve env invocations w1)) = true).
    { rewrite Ht. cbn. destruct T; [contradiction|reflexivity]. }
    rewrite (helper_alone_present u _ Htr), Ht.
    cbn [to_string]. cbn zeta.
    destruct (network env (outbound (serve env invocations w1)) _); reflexivity.
Qed.

(** The matchup route reads its request through [week_of] only. *)
Lemma nhl_matchups_week (req1 req2 : Req) (w : World) :
  week_of req1 = week_of req2 ->
  nhl_matchups env req1 w = nhl_matchups env req2 w.
Proof.
  intros H. unfold nhl_matchups. rewrite H. reflexivity.
Qed.

Lemma week_of_falsy (req : Req) :
  truthy (query_param req "week") = false -> week_of req = JString "current".
Proof.
  intros H. unfold week_of. rewrite H. reflexivity.
Qed.

Lemma first_url_scoped (r : Route) :
  league_scoped r = true -> first_url r = leaguesUrl.
Proof. destruct r; try discriminate; reflexivity. Qed.

(** The URL of the second call of a league-scoped route, from the renderings
    of the key and of the week. *)
Lemma final_url_scoped (r : Route) (req : Req) (leagueKey : JsValue)
    (key week : string) :
  league_scoped r = true ->
  to_string env leagueKey = Normal key ->
  (r = NhlMatchups -> to_string env (week_of req) = Normal week) ->
  final_url env r req leagueKey =
    Normal ("https://fantasysports.yahooapis.com/fantasy/v2/league/" ++ key
              ++ match r with
                 | NhlMatchups => "/scoreboard;week=" ++ week ++ "?format=json"
                 | _ => "/teams?format=json"
                 end).
Proof.
  intros Hl Hk Hw. destruct r; try discriminate; cbn [final_url];
    unfold scoreboardUrl, teamsUrl; rewrite Hk; [|reflexivity].
  rewrite (Hw eq_refl). reflexivity.
Qed.

(** C7 (amended). With a token present, /nhl-matchups and /nhl-teams first
    issue the league-list GET.  When that call resolves, the positional read
    [fantasy_content.users[0].user[1].games[0].game[1].leagues[0].league[0].league_key]
    yields a key, the key (and for /nhl-matchups the week) renders as a
    string, and a token is present when the handler resumes, the handler
    issues exactly one second helper call, to the URL built from that key
    and with the token of that moment, and when it resolves its body is the
    JSON answer, status 200. *)
Theorem league_scoped_sequence (r : Route) (req : Req) (w : World)
    (bearer : string) :
  league_scoped r = true ->
  truthy (accessToken w) = true ->
  to_string env (accessToken w) = Normal bearer ->
  let first := handle env r req w in
  awaited first =
    Some {| method := GET;
            url := "https://fantasysports.yahooapis.com/fantasy/v2/users;use_login=1/games;game_keys=nhl/leagues?format=json";
            headers := [("Authorization", "Bearer " ++ bearer);
                        ("Content-Type", "application/x-www-form-urlencoded")];
            data := None |} /\
  forall leaguesData leagueKey key week w1 bearer1,
    read_path leaguesData
      [Field "fantasy_content"; Field "users"; Index 0; Field "user"; Index 1;
       Field "games"; Index 0; Field "game"; Index 1; Field "leagues"; Index 0;
       Field "league"; Index 0; Field "league_key"] = Normal leagueKey ->
    to_string env leagueKey = Normal key ->
    (r = NhlMatchups ->
     to_string env (if truthy (query_param req "week")
                    then query_param req "week"
                    else JString "current")
       = Normal week) ->
    truthy (accessToken w1) = true ->
    to_string env (accessToken w1) = Normal bearer1 ->
    let second := resumed first (Resolved leaguesData) w1 in
    awaited second =
      Some {| method := GET;
              url := "https://fantasysports.yahooapis.com/fantasy/v2/league/"
                       ++ key
                       ++ match r with
                          | NhlMatchups =>
                              "/scoreboard;week=" ++ week ++ "?format=json"
                          | _ => "/teams?format=json"
                          end;
              headers := [("Authorization", "Bearer " ++ bearer1);
                          ("Content-Type", "application/x-www-form-urlencoded")];
              data := None |} /\
    (forall d w2,
       resumed second (Resolved d) w2 =
         Ret (Normal {| status := 200; body := Json d |}) w2) /\
    (forall o w2, awaited (resumed second o w2) = None).
Proof.
  intros Hl Ht Hs. cbn zeta.
  assert (Hd : is_data_route r = true) by (destruct r; try discriminate; reflexivity).
  destruct (route_first r req w Hd Ht Hs) as [Ha _].
  rewrite (first_url_scoped r Hl) in Ha.
  split; [exact Ha|].
  intros leaguesData leagueKey key week w1 bearer1 Hk Hks Hw Ht1 Hs1.
  change (league_key_of leaguesData = Normal leagueKey) in Hk.
  change (r = NhlMatchups -> to_string env (week_of req) = Normal week) in Hw.
  pose proof (route_second r req w leaguesData w1 Hl Ht Hs) as H2.
  cbn zeta in H2.
  rewrite Hk, (@final_url_scoped r req leagueKey key week Hl Hks Hw), Ht1, Hs1 in H2.
  destruct H2 as [Ha2 Hr2].
  split; [exact Ha2|]. split.
  - intros d w2. rewrite Hr2. reflexivity.
  - intros o w2. rewrite Hr2. destruct o; reflexivity.
Qed.

(** What a data route invoked with a token present can end with. *)
Lemma route_ends (r : Route) (req : Req) (w : World) (c : Completion Response) :
  is_data_route r = true ->
  truthy (accessToken w) = true ->
  ends_with (handle env r req w) c ->
  c = failed r \/ exists d, c = relayed d.
Proof.
  intros Hd Ht Hc.
  destruct (to_string env (accessToken w)) as [bearer|e] eqn:Hs.
  2:{ rewrite (route_unprintable r req w Hd Ht Hs) in Hc.
      left. exact (ends_with_ret Hc). }
  destruct (route_first r req w Hd Ht Hs) as [Ha [Hrej Hres]].
  destruct (ends_with_cases Hc) as [[w0 E]|[rq [o [w1 [_ Hc1]]]]].
  { rewrite E in Ha. discriminate Ha. }
  destruct o as [detail|d].
  { rewrite Hrej in Hc1. left. exact (ends_with_ret Hc1). }
  destruct (league_scoped r) eqn:Hl.
  2:{ rewrite (Hres eq_refl) in Hc1. right. exists d. exact (ends_with_ret Hc1). }
  pose proof (route_second r req w d w1 Hl Ht Hs) as H2.
  cbn zeta in H2.
  destruct (league_key_of d) as [leagueKey|e];
    [|rewrite H2 in Hc1; left; exact (ends_with_ret Hc1)].
  destruct (final_url env r req leagueKey) as [u|e];
    [|rewrite H2 in Hc1; left; exact (ends_with_ret Hc1)].
  destruct (truthy (accessToken w1));
    [|rewrite H2 in Hc1; left; exact (ends_with_ret Hc1)].
  destruct (to_string env (accessToken w1)) as [bearer1|e];
    [|rewrite H2 in Hc1; left; exact (ends_with_ret Hc1)].
  destruct H2 as [Ha2 Hr2].
  destruct (ends_with_cases Hc1) as [[w0 E]|[rq2 [o [w2 [_ Hc2]]]]].
  - rewrite E in Ha2. discriminate Ha2.
  - rewrite Hr2 in Hc2. destruct o as [detail|d2].
    + left. exact (ends_with_ret Hc2).
    + right. exists d2. exact (ends_with_ret Hc2).
Qed.


(** The scoreboard request of /nhl-matchups when the week defaults. *)
Lemma matchups_week_current (req : Req) (w : World) :
  truthy (accessToken w) = true ->
  week_of req = JString "current" ->
  (forall leaguesData w1 rq,
     awaited (resumed (nhl_matchups env req w) (Resolved leaguesData) w1) = Some rq ->
     exists key,
       url rq = "https://fantasysports.yahooapis.com/fantasy/v2/league/" ++ key
                  ++ "/scoreboard;week=current?format=json") /\
  (forall bearer leaguesData leagueKey key w1 bearer1,
     to_string env (accessToken w) = Normal bearer ->
     league_key_of leaguesData = Normal leagueKey ->
     to_string env leagueKey = Normal key ->
     truthy (accessToken w1) = true ->
     to_string env (accessToken w1) = Normal bearer1 ->
     awaited (resumed (nhl_matchups env req w) (Resolved leaguesData) w1) =
       Some {| method := GET;
               url := "https://fantasysports.yahooapis.com/fantasy/v2/league/"
                        ++ key ++ "/scoreboard;week=current?format=json";
               headers := [("Authorization", "Bearer " ++ bearer1);
                           ("Content-Type", "application/x-www-form-urlencoded")];
               data := None |}).
Proof.
  intros Ht Hweek.
  change (nhl_matchups env req w) with (handle env NhlMatchups req w).
  assert (Hurl : forall leagueKey,
             final_url env NhlMatchups req leagueKey =
               match to_string env leagueKey with
               | Throw e => Throw e
               | Normal key =>
                   Normal ("https://fantasysports.yahooapis.com/fantasy/v2/league/"
                             ++ key ++ "/scoreboard;week=current?format=json")
               end).
  { intros leagueKey. cbn [final_url]. unfold scoreboardUrl. rewrite Hweek.
    destruct (to_string env leagueKey); reflexivity. }
  split.
  - intros leaguesData w1 rq Hrq.
    destruct (to_string env (accessToken w)) as [bearer|e] eqn:Hs.
    2:{ rewrite (route_unprintable NhlMatchups req w eq_refl Ht Hs) in Hrq.
        discriminate Hrq. }
    pose proof (route_second NhlMatchups req w leaguesData w1 eq_refl Ht Hs) as H2.
    cbn zeta in H2.
    destruct (league_key_of leaguesData) as [leagueKey|e];
      [|rewrite H2 in Hrq; discriminate Hrq].
    rewrite Hurl in H2.
    destruct (to_string env leagueKey) as [key|e];
      [|rewrite H2 in Hrq; discriminate Hrq].
    destruct (truthy (accessToken w1));
      [|rewrite H2 in Hrq; discriminate Hrq].
    destruct (to_string env (accessToken w1)) as [bearer1|e];
      [|rewrite H2 in Hrq; discriminate Hrq].
    destruct H2 as [Ha2 _]. rewrite Ha2 in Hrq. injection Hrq as <-.
    exists key. reflexivity.
  - intros bearer leaguesData leagueKey key w1 bearer1 Hs Hk Hks Ht1 Hs1.
    pose proof (route_second NhlMatchups req w leaguesData w1 eq_refl Ht Hs) as H2.
    cbn zeta in H2.
    rewrite Hk, Hurl, Hks, Ht1, Hs1 in H2. exact (proj1 H2).
Qed.

(** C9. /nhl-matchups with a token present and no [week] parameter: every
    scoreboard request the handler builds carries the literal week
    [current], and it builds that request once the league list resolved, the
    key was read and rendered, and a token is present. *)
Theorem matchups_default_week (req : Req) (w : World) :
  truthy (accessToken w) = true ->
  query_param req "week" = JUndefined ->
  let first := nhl_matchups env req w in
  (forall leaguesData w1 rq,
     awaited (resumed first (Resolved leaguesData) w1) = Some rq ->
     exists key,
       url rq = "https://fantasysports.yahooapis.com/fantasy/v2/league/" ++ key
                  ++ "/scoreboard;week=current?format=json") /\
  (forall bearer leaguesData leagueKey key w1 bearer1,
     to_string env (accessToken w) = Normal bearer ->
     read_path leaguesData
          [Field "fantasy_content"; Field "users"; Index 0; Field "user"; Index 1;
           Field "games"; Index 0; Field "game"; Index 1; Field "leagues"; Index 0;
           Field "league"; Index 0; Field "league_key"] = Normal leagueKey ->
     to_string env leagueKey = Normal key ->
     truthy (accessToken w1) = true ->
     to_string env (accessToken w1) = Normal bearer1 ->
     awaited (resumed first (Resolved leaguesData) w1) =
       Some {| method := GET;
               url := "https://fantasysports.yahooapis.com/fantasy/v2/league/"
                        ++ key ++ "/scoreboard;week=current?format=json";
               headers := [("Authorization", "Bearer " ++ bearer1);
                           ("Content-Type", "application/x-www-form-urlencoded")];
               data := None |}).
Proof.
  intros Ht Hq. cbn zeta.
  apply (matchups_week_current req w Ht).
  apply week_of_falsy. rewrite Hq. reflexivity.
Qed.


End Properties.

(** ** The theorems at concrete inputs *)

Lemma callback_invalid_code_witness :
  is_string (query_param no_params "code") = false /\
  fst (alone env_unreachable (callback env_unreachable no_params) initial) =
    Normal {| status := 400; body := Text "Invalid authorization code" |} /\
  snd (alone env_unreachable (callback env_unreachable no_params) initial) = initial.
Proof.
  split; [reflexivity|].
  destruct (@callback_invalid_code env_unreachable no_params initial eq_refl)
    as [H1 [_ [_ [H4 _]]]].
  split; assumption.
Defined.

Lemma data_route_unauthenticated_witness :
  is_data_route NhlTeams = true /\
  truthy (accessToken initial) = false /\
  fst (alone env_fantasy (handle env_fantasy NhlTeams no_params) initial) =
    Normal {| status := 401;
              body := Text "Not authenticated. Please authenticate first." |} /\
  outbound (snd (alone env_fantasy (handle env_fantasy NhlTeams no_params) initial))
    = [].
Proof.
  split; [reflexivity|]. split; [reflexivity|].
  destruct (@data_route_unauthenticated env_fantasy NhlTeams no_params initial
              eq_refl eq_refl) as [H1 [H2 _]].
  split; assumption.
Defined.

Lemma helper_unauthenticated_witness :
  truthy (accessToken (with_token (JString ""))) = false /\
  fst (alone env_fantasy (makeAuthenticatedRequest env_fantasy gamesUrl)
         (with_token (JString "")))
    = Throw (Error "Not authenticated") /\
  outbound (snd (alone env_fantasy (makeAuthenticatedRequest env_fantasy gamesUrl)
                   (with_token (JString "")))) = [].
Proof.
  split; [reflexivity|].
  destruct (@helper_unauthenticated env_fantasy gamesUrl
              (with_token (JString "")) eq_refl) as [H1 [H2 _]].
  split; assumption.
Defined.

Lemma callback_exchange_failed_witness :
  query_param (with_code (JString "abc")) "code" = JString "abc" /\
  network env_unreachable [] (token_request env_unreachable "abc")
    = Rejected "ECONNREFUSED" /\
  fst (alone env_unreachable (callback env_unreachable (with_code (JString "abc")))
         (with_token (JString "old")))
    = Normal {| status := 500; body := Text "Authentication failed" |} /\
  accessToken (snd (alone env_unreachable
                      (callback env_unreachable (with_code (JString "abc")))
                      (with_token (JString "old")))) = JString "old".
Proof.
  split; [reflexivity|]. split; [reflexivity|].
  apply (@callback_exchange_failed env_unreachable (with_code (JString "abc"))
           (with_token (JString "old")) "abc" eq_refl).
  left. exists "ECONNREFUSED". reflexivity.
Defined.

Lemma token_stays_present_witness :
  truthy (accessToken
            (serve env_fantasy
               [(Callback, with_code (JString "abc"));
                (Test, no_params);
                (Callback, no_params);
                (NhlMatchups, with_week (JString "7"))]
               (with_token (JString "old")))) = true.
Proof.
  refine (proj1 (@token_stays_present env_fantasy _ (with_token (JString "old"))
                   _ eq_refl)).
  intros hist code d token Hn Hg.
  cbn in Hn. injection Hn as <-.
  cbn in Hg. injection Hg as <-.
  reflexivity.
Defined.

(** After the exchange, a callback without code (answered 400) and a data
    route come before the helper call. *)
Lemma callback_success_bearer_witness :
  map (fun rq => (url rq, assoc "Authorization" (headers rq)))
    (outbound (snd (alone env_fantasy (makeAuthenticatedRequest env_fantasy gamesUrl)
                      (serve env_fantasy
                         [(Callback, no_params); (NhlLeagues, no_params)]
                         (snd (alone env_fantasy
                                 (callback env_fantasy (with_code (JString "abc")))
                                 initial)))))) =
    [(tokenUrl, Some "Basic client:secret");
     (leaguesUrl, Some "Bearer T");
     (gamesUrl, Some "Bearer T")].
Proof.
  destruct (@callback_success_bearer env_fantasy (with_code (JString "abc"))
              initial "abc" (JObject [("access_token", JString "T")]) "T"
              eq_refl eq_refl eq_refl ltac:(discriminate)) as [_ [_ H]].
  destruct (H [(Callback, no_params); (NhlLeagues, no_params)]) as [_ [_ Hu]].
  - cbn. intros [E|[E|[]]]; discriminate E.
  - rewrite (Hu gamesUrl). reflexivity.
Defined.

Lemma league_scoped_sequence_witness :
  awaited (resumed (handle env_fantasy NhlMatchups (with_week (JString "7"))
                      (with_token (JString "T")))
                   (Resolved sample_leagues) (with_token (JString "T2"))) =
    Some {| method := GET;
            url := "https://fantasysports.yahooapis.com/fantasy/v2/league/453.l.1234/scoreboard;week=7?format=json";
            headers := [("Authorization", "Bearer T2");
                        ("Content-Type", "application/x-www-form-urlencoded")];
            data := None |}.
Proof.
  destruct (@league_scoped_sequence env_fantasy NhlMatchups
              (with_week (JString "7")) (with_token (JString "T")) "T"
              eq_refl eq_refl eq_refl) as [_ H].
  exact (proj1 (H sample_leagues (JString "453.l.1234") "453.l.1234" "7"
                  (with_token (JString "T2")) "T2"
                  eq_refl eq_refl (fun _ => eq_refl) eq_refl eq_refl)).
Defined.


Lemma matchups_default_week_witness :
  awaited (resumed (nhl_matchups env_fantasy no_params (with_token (JString "T")))
                   (Resolved sample_leagues) (with_token (JString "T"))) =
    Some {| method := GET;
            url := "https://fantasysports.yahooapis.com/fantasy/v2/league/453.l.1234/scoreboard;week=current?format=json";
            headers := [("Authorization", "Bearer T");
                        ("Content-Type", "application/x-www-form-urlencoded")];
            data := None |}.
Proof.
  destruct (@matchups_default_week env_fantasy no_params
              (with_token (JString "T")) eq_refl eq_refl) as [_ H].
  exact (H "T" sample_leagues (JString "453.l.1234") "453.l.1234"
           (with_token (JString "T")) "T" eq_refl eq_refl eq_refl eq_refl eq_refl).
Defined.


(** ** Where the claims as written fail *)

(** C1 as written.  The token endpoint answers 2xx with the body [{}], a
    token response without [access_token]: the callback answers 200 and
    overwrites the stored token with [undefined]. *)
Lemma callback_malformed_body_counterexample :
  query_param (with_code (JString "abc")) "code" = JString "abc" /\
  network env_empty_body (outbound (with_token (JString "old")))
    (token_request env_empty_body "abc") = Resolved (JObject []) /\
  fst (alone env_empty_body (callback env_empty_body (with_code (JString "abc")))
         (with_token (JString "old"))) = confirmation /\
  accessToken (snd (alone env_empty_body
                      (callback env_empty_body (with_code (JString "abc")))
                      (with_token (JString "old")))) = JUndefined /\
  ~ (fst (alone env_empty_body (callback env_empty_body (with_code (JString "abc")))
            (with_token (JString "old")))
       = Normal {| status := 500; body := Text "Authentication failed" |} /\
     accessToken (snd (alone env_empty_body
                         (callback env_empty_body (with_code (JString "abc")))
                         (with_token (JString "old"))))
       = accessToken (with_token (JString "old"))).
Proof.
  repeat (split; [reflexivity|]).
  intros [H _]. discriminate H.
Qed.

(** C2 as written.  With the token "old" present, a callback whose exchange
    resolves with [{}] is answered with the confirmation and leaves the token
    absent. *)
Lemma token_made_absent_counterexample :
  truthy (accessToken (with_token (JString "old"))) = true /\
  fst (alone env_empty_body
         (handle env_empty_body Callback (with_code (JString "abc")))
         (with_token (JString "old"))) = confirmation /\
  truthy (accessToken (snd (alone env_empty_body
                              (handle env_empty_body Callback
                                 (with_code (JString "abc")))
                              (with_token (JString "old"))))) = false /\
  ~ (forall env r req w,
       truthy (accessToken w) = true ->
       truthy (accessToken (snd (alone env (handle env r req) w))) = true).
Proof.
  repeat (split; [reflexivity|]).
  intros H.
  specialize (H env_empty_body Callback (with_code (JString "abc"))
                (with_token (JString "old")) eq_refl).
  discriminate H.
Qed.

(** C3 as written.  The token endpoint answers with [{access_token: ""}]:
    the callback answers 200 and stores the empty string, and the next helper
    call throws without issuing a GET. *)
Lemma callback_empty_token_counterexample :
  fst (alone env_empty_token (callback env_empty_token (with_code (JString "abc")))
         initial) = confirmation /\
  accessToken (snd (alone env_empty_token
                      (callback env_empty_token (with_code (JString "abc")))
                      initial)) = JString "" /\
  fst (alone env_empty_token (makeAuthenticatedRequest env_empty_token gamesUrl)
         (snd (alone env_empty_token
                 (callback env_empty_token (with_code (JString "abc"))) initial)))
    = Throw (Error "Not authenticated") /\
  outbound (snd (alone env_empty_token
                   (makeAuthenticatedRequest env_empty_token gamesUrl)
                   (snd (alone env_empty_token
                           (callback env_empty_token (with_code (JString "abc")))
                           initial))))
    = [token_request env_empty_token "abc"] /\
  ~ In (bearer_request "" gamesUrl)
       (outbound (snd (alone env_empty_token
                         (makeAuthenticatedRequest env_empty_token gamesUrl)
                         (snd (alone env_empty_token
                                 (callback env_empty_token
                                    (with_code (JString "abc"))) initial))))).
Proof.
  repeat (split; [reflexivity|]).
  cbn. intros [H|[]]. discriminate H.
Qed.

(** C7 as written.  A token is present, the league list resolves and the
    positional read yields a key, but the key is an object with an own
    [toString] property: building the URL throws, /nhl-teams answers 500 and
    has issued the league-list call alone, no second call. *)
Lemma unprintable_key_counterexample :
  truthy (accessToken (with_token (JString "T"))) = true /\
  network env_unprintable_key [] (bearer_request "T" leaguesUrl)
    = Resolved (leagues_with_key unprintable) /\
  league_key_of (leagues_with_key unprintable) = Normal unprintable /\
  fst (alone env_unprintable_key (handle env_unprintable_key NhlTeams no_params)
         (with_token (JString "T")))
    = Normal {| status := 500; body := Text "Error fetching NHL team information" |} /\
  outbound (snd (alone env_unprintable_key
                   (handle env_unprintable_key NhlTeams no_params)
                   (with_token (JString "T"))))
    = [bearer_request "T" leaguesUrl] /\
  ~ (exists second,
       outbound (snd (alone env_unprintable_key
                        (handle env_unprintable_key NhlTeams no_params)
                        (with_token (JString "T"))))
         = [bearer_request "T" leaguesUrl; second]).
Proof.
  repeat (split; [reflexivity|]).
  intros [second H]. discriminate H.
Qed.

(** * Further properties *)

Lemma env_var_truthy (penv : ProcessEnv) (name : string) :
  truthy (env_var penv name) = true <->
  exists v, assoc name penv = Some v /\ v <> "".
Proof.
  unfold env_var. destruct (assoc name penv) as [v|]; cbn.
  - rewrite negb_true_iff, String.eqb_neq. split.
    + intros H. exists v. split; [reflexivity|exact H].
    + intros [v' [Hv Hne]]. injection Hv as <-. exact Hne.
  - split; [discriminate|]. intros [v [Hv _]]. discriminate.
Qed.

Lemma env_or_spec (penv : ProcessEnv) (name fallback : string) :
  env_or penv name fallback =
    match assoc name penv with
    | Some (String c v) => String c v
    | _ => fallback
    end.
Proof.
  unfold env_or, env_var. destruct (assoc name penv) as [[|c v]|]; reflexivity.
Qed.

(** X1. The module stops at its credentials guard, with the message on the
    console and [process.exit(1)], exactly when [YAHOO_CLIENT_ID] or
    [YAHOO_CLIENT_SECRET] is unset or empty, whatever the certificate files
    and the port; it calls [process.exit] with no other status.  With both
    set it serves exactly when both certificate files can be read and the
    server can listen; otherwise the load dies of an uncaught exception. *)
Theorem boot_exits_iff (penv : ProcessEnv) (files : string -> option string)
    (opens : string -> string -> string -> bool) :
  ((exists message, boot penv files opens = Exited 1 message) <->
   (assoc "YAHOO_CLIENT_ID" penv = None \/
    assoc "YAHOO_CLIENT_ID" penv = Some "" \/
    assoc "YAHOO_CLIENT_SECRET" penv = None \/
    assoc "YAHOO_CLIENT_SECRET" penv = Some "")) /\
  (forall code message, boot penv files opens = Exited code message -> code = 1) /\
  ((exists s, boot penv files opens = Serving s) <->
   (exists id secret key cert,
      assoc "YAHOO_CLIENT_ID" penv = Some id /\ id <> "" /\
      assoc "YAHOO_CLIENT_SECRET" penv = Some secret /\ secret <> "" /\
      files (env_or penv "SSL_KEY_PATH" "key.pem") = Some key /\
      files (env_or penv "SSL_CERT_PATH" "cert.pem") = Some cert /\
      opens key cert (env_or penv "PORT" "3000") = true)).
Proof.
  unfold boot, env_var. cbn zeta.
  destruct (assoc "YAHOO_CLIENT_ID" penv) as [[|c id]|];
    destruct (assoc "YAHOO_CLIENT_SECRET" penv) as [[|c' secret]|]; cbn;
    try (split; [split; [auto 6|intros _; eexists; reflexivity]|];
         split; [intros code message H; injection H as <- _; reflexivity|];
         split; [intros [s H]; discriminate H|];
         intros [i [s [k [ce [H1 [H2 [H3 [H4 _]]]]]]]];
         try discriminate H1; try discriminate H3;
         try (injection H1 as <-; contradiction);
         try (injection H3 as <-; contradiction)).
  destruct (files (env_or penv "SSL_KEY_PATH" "key.pem")) as [key|];
    [destruct (files (env_or penv "SSL_CERT_PATH" "cert.pem")) as [cert|];
       [destruct (opens key cert (env_or penv "PORT" "3000")) eqn:Ho|]|];
    (split; [split; [intros [m H]; discriminate H
                    |intros [H|[H|[H|H]]]; discriminate H]|];
     split; [intros code message H; discriminate H|];
     split; [intros [s H]; try discriminate H|]).
  - exists (String c id), (String c' secret), key, cert.
    repeat split; try discriminate. exact Ho.
  - intros _. eexists. reflexivity.
  - intros [i [s [k [ce [_ [_ [_ [_ [H5 [H6 H7]]]]]]]]]].
    injection H5 as <-. injection H6 as <-. congruence.
  - intros [i [s [k [ce [_ [_ [_ [_ [_ [H6 _]]]]]]]]]]. discriminate H6.
  - intros [i [s [k [ce [_ [_ [_ [_ [H5 _]]]]]]]]]. discriminate H5.
Qed.

(** X2. When the module serves, both credentials are the non-empty values of
    their variables, the port is [PORT] unless that is unset or empty, when
    it is 3000, and the certificate paths default to [key.pem] and
    [cert.pem] in the same way; both files were read and the server
    listens. *)
Theorem boot_serving (penv : ProcessEnv) (files : string -> option string)
    (opens : string -> string -> string -> bool) (s : Settings) :
  boot penv files opens = Serving s ->
  (assoc "YAHOO_CLIENT_ID" penv = Some (yahooClientId s) /\ yahooClientId s <> "") /\
  (assoc "YAHOO_CLIENT_SECRET" penv = Some (yahooClientSecret s) /\
   yahooClientSecret s <> "") /\
  (forall name fallback,
     env_or penv name fallback =
       match assoc name penv with
       | Some (String c v) => String c v
       | _ => fallback
       end) /\
  listenPort s = env_or penv "PORT" "3000" /\
  keyPath s = env_or penv "SSL_KEY_PATH" "key.pem" /\
  certPath s = env_or penv "SSL_CERT_PATH" "cert.pem" /\
  exists key cert,
    files (keyPath s) = Some key /\ files (certPath s) = Some cert /\
    opens key cert (listenPort s) = true.
Proof.
  unfold boot. cbn zeta. intros H.
  unfold env_var in H.
  destruct (assoc "YAHOO_CLIENT_ID" penv) as [[|c id]|]; try discriminate H;
    destruct (assoc "YAHOO_CLIENT_SECRET" penv) as [[|c' secret]|];
    try discriminate H.
  cbn in H.
  destruct (files (env_or penv "SSL_KEY_PATH" "key.pem")) as [key|] eqn:Hk;
    [|discriminate H].
  destruct (files (env_or penv "SSL_CERT_PATH" "cert.pem")) as [cert|] eqn:Hc;
    [|discriminate H].
  destruct (opens key cert (env_or penv "PORT" "3000")) eqn:Ho; [|discriminate H].
  injection H as <-. cbn.
  repeat split; try reflexivity; try discriminate.
  - apply env_or_spec.
  - exists key, cert. auto.
Qed.

Section Further.

Variable env : Env.

Arguments league_key_of : simpl never.

Ltac worlds :=
  cbn [fst snd sent logged assigned caught rethrown accessToken outbound console].

(** X4. Through every sequence of invocations the trace of outbound calls is
    only extended, by at most two calls per invocation.  Every POST goes to
    the token URL with the Basic credentials and no other authorization;
    every GET goes below the root of the fantasy API, without a body,
    carrying a Bearer header made from the rendering of a truthy token. *)
Theorem calls_are_directed (invocations : list (Route * Req)) (w : World) :
  exists issued,
    outbound (serve env invocations w) = (outbound w ++ issued)%list /\
    length issued <= 2 * length invocations /\
    Forall (fun rq =>
              match method rq with
              | POST =>
                  url rq = "https://api.login.yahoo.com/oauth2/get_token" /\
                  headers rq =
                    [("Authorization",
                      "Basic " ++ base64 env (clientId env ++ ":" ++ clientSecret env));
                     ("Content-Type", "application/x-www-form-urlencoded")]
              | GET =>
                  (exists path,
                     url rq = "https://fantasysports.yahooapis.com/fantasy/v2/" ++ path) /\
                  data rq = None /\
                  exists token bearer,
                    truthy token = true /\
                    to_string env token = Normal bearer /\
                    headers rq =
                      [("Authorization", "Bearer " ++ bearer);
                       ("Content-Type", "application/x-www-form-urlencoded")]
              end) issued.
Proof.
  destruct (serve_calls env invocations w) as [issued [Ho [Hl Hf]]].
  exists issued. split; [exact Ho|]. split; [exact Hl|].
  rewrite Forall_forall in *. intros rq Hin.
  destruct (Hf rq Hin) as [[code ->]|[token [bearer [path [Ht [Hs ->]]]]]]; cbn.
  - split; reflexivity.
  - split; [exists path; reflexivity|]. split; [reflexivity|].
    exists token, bearer. auto.
Qed.

(** X5. No handler lets an exception escape: every invocation is answered,
    /auth with 302, the callback with 200, 400 or 500, a data route with
    200, 401 or 500; this holds of the invocation served alone and of every
    way its calls settle and it is resumed. *)
Theorem every_invocation_answers (r : Route) (req : Req) (w : World) :
  (exists res,
     fst (alone env (handle env r req) w) = Normal res /\
     In (status res) (answers_of r)) /\
  (forall c,
     ends_with (handle env r req w) c ->
     exists res, c = Normal res /\ In (status res) (answers_of r)).
Proof.
  assert (Hall : forall c,
             ends_with (handle env r req w) c ->
             exists res, c = Normal res /\ In (status res) (answers_of r)).
  { intros c Hc.
    destruct (is_data_route r) eqn:Hd.
    - assert (Hin : In 200 (answers_of r) /\ In 401 (answers_of r) /\
                    In 500 (answers_of r))
        by (destruct r; try discriminate; cbn; auto 6).
      destruct Hin as [H200 [H401 H500]].
      destruct (truthy (accessToken w)) eqn:Ht.
      + destruct (route_ends env r req w Hd Ht Hc) as [->|[d ->]];
          eexists; (split; [reflexivity|assumption]).
      + rewrite (route_absent env r req w Hd Ht) in Hc.
        rewrite (ends_with_ret Hc). eexists; split; [reflexivity|exact H401].
    - destruct r; try discriminate.
      + rewrite (ends_with_ret Hc). eexists; split; [reflexivity|cbn; auto].
      + cbn [handle] in Hc.
        destruct (is_string (query_param req "code")) eqn:Hq.
        * destruct (query_param req "code") as [| | | |code| |] eqn:Hcode;
            try discriminate.
          destruct (callback_awaits env req w Hcode) as [Ha Hr].
          destruct (ends_with_cases Hc) as [[w0 E]|[rq [o [w1 [_ Hc1]]]]].
          { rewrite E in Ha. discriminate Ha. }
          rewrite Hr in Hc1. cbn zeta in Hc1.
          destruct o as [detail|d].
          { rewrite (ends_with_ret Hc1). eexists; split; [reflexivity|cbn; auto]. }
          destruct (get_field d "access_token");
            rewrite (ends_with_ret Hc1); eexists; (split; [reflexivity|cbn; auto]).
        * rewrite (callback_without_code env req w Hq) in Hc.
          rewrite (ends_with_ret Hc). eexists; split; [reflexivity|cbn; auto]. }
  split; [|exact Hall].
  apply Hall. unfold alone.
  generalize (handle env r req w). intros t.
  induction t as [c w0|rq w0 resume IH].
  - apply ends_ret.
  - cbn [alone_task]. eapply ends_await. apply IH.
Qed.

(** X6. A callback with a string [code] issues exactly one call, the token
    exchange, whatever comes of it.  It writes one console line, labelled
    "Error getting token:" and carrying the error, when the exchange is
    rejected or the body is [null] or [undefined], and none otherwise. *)
Theorem callback_single_exchange (req : Req) (w : World) (code : string) :
  query_param req "code" = JString code ->
  let w' := snd (alone env (callback env req) w) in
  outbound w' = (outbound w ++ [token_request env code])%list /\
  match network env (outbound w) (token_request env code) with
  | Rejected detail =>
      console w' = (console w ++ [("Error getting token:", AxiosError detail)])%list
  | Resolved JUndefined | Resolved JNull =>
      console w' =
        (console w ++ [("Error getting token:", TypeError "access_token")])%list
  | Resolved _ => console w' = console w
  end.
Proof.
  intros Hc. cbn zeta. rewrite (callback_with_code env req w Hc). cbn zeta.
  destruct (network env (outbound w) _) as [detail|d]; worlds.
  - split; reflexivity.
  - destruct d as [| | | | | |entries]; cbn [get_field]; worlds;
      try (split; reflexivity).
    destruct (assoc "access_token" entries); worlds; split; reflexivity.
Qed.

(** X7. The helper, called with a truthy token, leaves the token alone.
    When the token renders as a string it issues exactly one GET, to the URL
    it was given: when the call resolves it returns the body and logs
    nothing; when it is rejected it logs one line and throws the very error
    axios gave.  When the token cannot be rendered (an object with an own
    [toString]) it issues no call, logs one line and throws that error. *)
Theorem helper_outcome (u : string) (w : World) :
  truthy (accessToken w) = true ->
  let w' := snd (alone env (makeAuthenticatedRequest env u) w) in
  accessToken w' = accessToken w /\
  match to_string env (accessToken w) with
  | Normal bearer =>
      let rq := {| method := GET; url := u;
                   headers :=
                     [("Authorization", "Bearer " ++ bearer);
                      ("Content-Type", "application/x-www-form-urlencoded")];
                   data := None |} in
      outbound w' = (outbound w ++ [rq])%list /\
      match network env (outbound w) rq with
      | Resolved d =>
          fst (alone env (makeAuthenticatedRequest env u) w) = Normal d /\
          console w' = console w
      | Rejected detail =>
          fst (alone env (makeAuthenticatedRequest env u) w)
            = Throw (AxiosError detail) /\
          console w' =
            (console w ++
               [("Error making authenticated request:", AxiosError detail)])%list
      end
  | Throw e =>
      outbound w' = outbound w /\
      fst (alone env (makeAuthenticatedRequest env u) w) = Throw e /\
      console w' =
        (console w ++ [("Error making authenticated request:", e)])%list
  end.
Proof.
  intros Ht. cbn zeta.
  rewrite (helper_alone_present env u w Ht).
  destruct (to_string env (accessToken w)) as [bearer|e].
  - cbn zeta.
    change (bearer_request bearer u)
      with {| method := GET; url := u;
              headers :=
                [("Authorization", "Bearer " ++ bearer);
                 ("Content-Type", "application/x-www-form-urlencoded")];
              data := None |}.
    destruct (network env (outbound w) _); worlds; repeat split; reflexivity.
  - worlds. repeat split; reflexivity.
Qed.

Lemma nothing_issued (l before : list Request) (rq : Request) :
  l <> (l ++ before ++ [rq])%list.
Proof.
  intros H. apply (f_equal (@length _)) in H.
  rewrite !length_app in H. cbn in H. lia.
Qed.

Lemma last_issued (l init before : list Request) (x rq : Request) :
  (l ++ init ++ [x])%list = (l ++ before ++ [rq])%list ->
  before = init /\ rq = x.
Proof.
  intros H. apply app_inv_head in H. apply app_inj_tail in H as [-> ->]. auto.
Qed.

(** X8. A data route with a token present logs nothing when it relays a
    body.  When the last call it issued was rejected, the console gains
    exactly two lines carrying that same error: the helper's, then the
    route's. *)
Theorem data_route_console (r : Route) (req : Req) (w : World) :
  is_data_route r = true ->
  truthy (accessToken w) = true ->
  let w' := snd (alone env (handle env r req) w) in
  (forall d,
     fst (alone env (handle env r req) w)
       = Normal {| status := 200; body := Json d |} ->
     console w' = console w) /\
  (forall before rq detail,
     outbound w' = (outbound w ++ before ++ [rq])%list ->
     network env (outbound w ++ before) rq = Rejected detail ->
     console w' =
       (console w ++
          [("Error making authenticated request:", AxiosError detail);
           (route_label r, AxiosError detail)])%list).
Proof.
  intros Hd Ht. cbn zeta.
  assert (Hne : forall d, failed r <> Normal {| status := 200; body := Json d |})
    by (intros d H; discriminate H).
  assert (Hrej : forall l init before x rq detail detail' (w0 : World),
             (l ++ init ++ [x])%list = (l ++ before ++ [rq])%list ->
             network env (l ++ init) x = Rejected detail' ->
             network env (l ++ before) rq = Rejected detail ->
             ((console w ++ [(helper_label, AxiosError detail')])
                ++ [(route_label r, AxiosError detail')])%list =
             (console w ++
                [("Error making authenticated request:", AxiosError detail);
                 (route_label r, AxiosError detail)])%list).
  { intros l init before x rq detail detail' w0 Ho Hx Hn.
    destruct (@last_issued _ _ _ _ _ Ho) as [-> ->].
    rewrite Hx in Hn. injection Hn as <-. rewrite <- app_assoc. reflexivity. }
  assert (Hres : forall l init before x rq detail d (P : Prop),
             (l ++ init ++ [x])%list = (l ++ before ++ [rq])%list ->
             network env (l ++ init) x = Resolved d ->
             network env (l ++ before) rq = Rejected detail -> P).
  { intros l init before x rq detail d P Ho Hx Hn.
    destruct (@last_issued _ _ _ _ _ Ho) as [-> ->]. congruence. }
  destruct (league_scoped r) eqn:Hs.
  - rewrite (league_scoped_route env r req w Hs Ht).
    destruct (to_string env (accessToken w)) as [bearer|e]; worlds.
    2:{ split; [intros d H; destruct (Hne _ H)|].
        intros before rq detail Ho _. destruct (@nothing_issued _ _ _ Ho). }
    cbn zeta.
    set (rq1 := bearer_request bearer leaguesUrl).
    destruct (network env (outbound w) rq1) as [detail1|leaguesData] eqn:Hn1; worlds.
    { split; [intros d H; destruct (Hne _ H)|].
      intros before rq detail Ho Hn.
      apply (Hrej (outbound w) [] before rq1 rq detail detail1 w Ho); [|exact Hn].
      rewrite app_nil_r. exact Hn1. }
    assert (Hone : forall (P : Prop) before rq detail,
               (outbound w ++ [rq1])%list = (outbound w ++ before ++ [rq])%list ->
               network env (outbound w ++ before) rq = Rejected detail -> P).
    { intros P before rq detail Ho Hn.
      apply (Hres (outbound w) [] before rq1 rq detail leaguesData P Ho); [|exact Hn].
      rewrite app_nil_r. exact Hn1. }
    destruct (league_key_of leaguesData) as [k|e]; worlds.
    2:{ split; [intros d H; destruct (Hne _ H)|].
        intros before rq detail. apply Hone. }
    destruct (final_url env r req k) as [u|e]; worlds.
    2:{ split; [intros d H; destruct (Hne _ H)|].
        intros before rq detail. apply Hone. }
    cbn zeta.
    set (rq2 := bearer_request bearer u).
    destruct (network env (outbound w ++ [rq1]) rq2) as [detail2|d2] eqn:Hn2; worlds.
    + split; [intros d H; destruct (Hne _ H)|].
      intros before rq detail Ho Hn. rewrite <- app_assoc in Ho.
      exact (Hrej (outbound w) [rq1] before rq2 rq detail detail2 w Ho Hn2 Hn).
    + split; [reflexivity|].
      intros before rq detail Ho Hn. rewrite <- app_assoc in Ho.
      exact (Hres (outbound w) [rq1] before rq2 rq detail d2 _ Ho Hn2 Hn).
  - rewrite (single_call_route env r req w Hd Hs Ht).
    destruct (to_string env (accessToken w)) as [bearer|e]; worlds.
    2:{ split; [intros d H; destruct (Hne _ H)|].
        intros before rq detail Ho _. destruct (@nothing_issued _ _ _ Ho). }
    cbn zeta.
    set (rq0 := bearer_request bearer (first_url r)).
    destruct (network env (outbound w) rq0) as [detail0|d0] eqn:Hn0; worlds.
    + split; [intros d H; destruct (Hne _ H)|].
      intros before rq detail Ho Hn.
      apply (Hrej (outbound w) [] before rq0 rq detail detail0 w Ho); [|exact Hn].
      rewrite app_nil_r. exact Hn0.
    + split; [reflexivity|].
      intros before rq detail Ho Hn.
      apply (Hres (outbound w) [] before rq0 rq detail d0 _ Ho); [|exact Hn].
      rewrite app_nil_r. exact Hn0.
Qed.

Lemma read_throws (v : JsValue) (a : Accessor) (e : JsError) :
  read v a = Throw e ->
  (v = JUndefined \/ v = JNull) /\ e = TypeError (accessor_name a).
Proof.
  destruct a as [name|i]; cbn [read accessor_name];
    destruct v as [| | | | |items|entries]; cbn;
    try discriminate; try (intros H; injection H as <-; auto).
  - destruct (assoc name entries); discriminate.
  - destruct (String.get i s); discriminate.
  - destruct (nth_error items i); discriminate.
  - destruct (assoc (index_name i) entries); discriminate.
Qed.

Lemma read_path_throws (v : JsValue) (p : list Accessor) (e : JsError) :
  read_path v p = Throw e ->
  exists b, In b p /\ e = TypeError (accessor_name b).
Proof.
  revert v. induction p as [|b p IH]; intros v H; cbn [read_path] in H.
  - discriminate.
  - destruct (read v b) as [x|e'] eqn:Hr.
    + destruct (IH x H) as [b' [Hin He]]. exists b'. split; [right; exact Hin|exact He].
    + injection H as <-. exists b. split; [left; reflexivity|].
      exact (proj2 (read_throws _ _ Hr)).
Qed.

(** X10. When the league list resolves but the positional read of the key
    throws, a league-scoped route answers 500 with its fixed text, issues no
    second call, and logs one line: its own, carrying a [TypeError]. *)
Theorem key_read_failure (r : Route) (req : Req) (w : World) (bearer : string)
    (leaguesData : JsValue) (e : JsError) :
  league_scoped r = true ->
  truthy (accessToken w) = true ->
  to_string env (accessToken w) = Normal bearer ->
  network env (outbound w) (bearer_request bearer leaguesUrl)
    = Resolved leaguesData ->
  league_key_of leaguesData = Throw e ->
  let w' := snd (alone env (handle env r req) w) in
  fst (alone env (handle env r req) w) =
    Normal {| status := 500; body := Text (failure_message r) |} /\
  outbound w' = (outbound w ++ [bearer_request bearer leaguesUrl])%list /\
  console w' = (console w ++ [(route_label r, e)])%list /\
  exists name, e = TypeError name.
Proof.
  intros Hs Ht Hb Hn Hk. cbn zeta.
  rewrite (league_scoped_route env r req w Hs Ht), Hb. cbn zeta.
  rewrite Hn, Hk. worlds. repeat split.
  unfold league_key_of in Hk.
  destruct (read_path_throws _ _ Hk) as [b [_ He]].
  exists (accessor_name b). exact He.
Qed.

(** A league list without [fantasy_content] (an error document, a string, a
    number) makes the key read throw at [users]. *)
Lemma key_read_without_content (leaguesData : JsValue) :
  get_field leaguesData "fantasy_content" = Normal JUndefined ->
  league_key_of leaguesData = Throw (TypeError "users").
Proof.
  intros H. unfold league_key_of. cbn [read_path read]. rewrite H. reflexivity.
Qed.

(** X11. When the positional read yields [undefined] (the first league
    carries no [league_key]) the route does not stop: provided the week
    renders (for /nhl-matchups) and a token is present when it resumes, it
    issues its second call with the text "undefined" in the place of the
    key. *)
Theorem undefined_key_is_sent (r : Route) (req : Req) (w : World)
    (bearer : string) (leaguesData : JsValue) (week : string) (w1 : World)
    (bearer1 : string) :
  league_scoped r = true ->
  truthy (accessToken w) = true ->
  to_string env (accessToken w) = Normal bearer ->
  read_path leaguesData
          [Field "fantasy_content"; Field "users"; Index 0; Field "user"; Index 1;
           Field "games"; Index 0; Field "game"; Index 1; Field "leagues"; Index 0;
           Field "league"; Index 0; Field "league_key"] = Normal JUndefined ->
  (r = NhlMatchups ->
   to_string env (if truthy (query_param req "week")
                  then query_param req "week"
                  else JString "current")
     = Normal week) ->
  truthy (accessToken w1) = true ->
  to_string env (accessToken w1) = Normal bearer1 ->
  awaited (resumed (handle env r req w) (Resolved leaguesData) w1) =
    Some {| method := GET;
            url := "https://fantasysports.yahooapis.com/fantasy/v2/league/undefined"
                     ++ match r with
                        | NhlMatchups =>
                            "/scoreboard;week=" ++ week ++ "?format=json"
                        | _ => "/teams?format=json"
                        end;
            headers := [("Authorization", "Bearer " ++ bearer1);
                        ("Content-Type", "application/x-www-form-urlencoded")];
            data := None |}.
Proof.
  intros Hl Ht Hs Hk Hw Ht1 Hs1.
  change (league_key_of leaguesData = Normal JUndefined) in Hk.
  change (r = NhlMatchups -> to_string env (week_of req) = Normal week) in Hw.
  pose proof (route_second env r req w leaguesData w1 Hl Ht Hs) as H2.
  cbn zeta in H2.
  rewrite Hk, (@final_url_scoped env r req JUndefined "undefined" week Hl eq_refl Hw),
    Ht1, Hs1 in H2.
  exact (proj1 H2).
Qed.

Lemma to_string_strings (l : list string) :
  to_string env (JArray (map JString l)) = Normal (String.concat "," l).
Proof.
  induction l as [|x rest IH]; [reflexivity|].
  destruct rest as [|y rest]; [reflexivity|].
  cbn [map] in *. cbn [to_string] in *.
  rewrite IH. reflexivity.
Qed.

(** X12. A truthy [week] goes into the scoreboard URL as it is, without
    encoding or validation: a non-empty string verbatim, a repeated
    parameter (an array of strings) as its elements joined by commas.  The
    request is the one issued when the league list resolved, the key was
    read and rendered, and a token is present. *)
Theorem week_passed_verbatim (req : Req) (w : World) (bearer : string)
    (leaguesData leagueKey : JsValue) (key rendered : string) (w1 : World)
    (bearer1 : string) :
  truthy (accessToken w) = true ->
  to_string env (accessToken w) = Normal bearer ->
  (query_param req "week" = JString rendered /\ rendered <> "") \/
  (exists l, query_param req "week" = JArray (map JString l) /\
             rendered = String.concat "," l) ->
  read_path leaguesData
          [Field "fantasy_content"; Field "users"; Index 0; Field "user"; Index 1;
           Field "games"; Index 0; Field "game"; Index 1; Field "leagues"; Index 0;
           Field "league"; Index 0; Field "league_key"] = Normal leagueKey ->
  to_string env leagueKey = Normal key ->
  truthy (accessToken w1) = true ->
  to_string env (accessToken w1) = Normal bearer1 ->
  awaited (resumed (nhl_matchups env req w) (Resolved leaguesData) w1) =
    Some {| method := GET;
            url := "https://fantasysports.yahooapis.com/fantasy/v2/league/"
                     ++ key ++ "/scoreboard;week=" ++ rendered ++ "?format=json";
            headers := [("Authorization", "Bearer " ++ bearer1);
                        ("Content-Type", "application/x-www-form-urlencoded")];
            data := None |}.
Proof.
  intros Ht Hs Hw Hk Hks Ht1 Hs1.
  change (league_key_of leaguesData = Normal leagueKey) in Hk.
  assert (Hweek : to_string env (week_of req) = Normal rendered).
  { unfold week_of. destruct Hw as [[Hq Hne]|[l [Hq ->]]]; rewrite Hq.
    - cbn. destruct rendered; [contradiction|reflexivity].
    - cbn [truthy]. apply to_string_strings. }
  change (nhl_matchups env req w) with (handle env NhlMatchups req w).
  pose proof (route_second env NhlMatchups req w leaguesData w1 eq_refl Ht Hs) as H2.
  cbn zeta in H2.
  rewrite Hk, (@final_url_scoped env NhlMatchups req leagueKey key rendered
                 eq_refl Hks (fun _ => Hweek)), Ht1, Hs1 in H2.
  exact (proj1 H2).
Qed.

(** X13. The last exchange wins: after any sequence of invocations, a
    callback whose exchange resolves stores the [access_token] property of
    the body, whatever value that is and whatever token was held before. *)
Theorem last_exchange_wins (before : list (Route * Req)) (req : Req) (w : World)
    (code : string) (d token : JsValue) :
  query_param req "code" = JString code ->
  network env (outbound (serve env before w)) (token_request env code)
    = Resolved d ->
  get_field d "access_token" = Normal token ->
  accessToken (serve env (before ++ [(Callback, req)]) w) = token.
Proof.
  intros Hc Hn Hg. rewrite serve_app. cbn [serve handle].
  rewrite (callback_with_code env req (serve env before w) Hc). cbn zeta.
  rewrite Hn, Hg. reflexivity.
Qed.

(** X14. While no token exchange resolves, no sequence of invocations
    changes the token; when it was absent to begin with, the only calls ever
    issued are token exchanges: the data API is never called. *)
Theorem no_exchange_no_token (invocations : list (Route * Req)) (w : World) :
  (forall hist code,
     exists detail, network env hist (token_request env code) = Rejected detail) ->
  accessToken (serve env invocations w) = accessToken w /\
  (truthy (accessToken w) = false ->
   exists issued,
     outbound (serve env invocations w) = (outbound w ++ issued)%list /\
     Forall (fun rq => method rq = POST /\ exists code, rq = token_request env code)
            issued).
Proof.
  intros Hnet.
  assert (Hstep : forall r req w0,
             accessToken (snd (alone env (handle env r req) w0)) = accessToken w0).
  { intros r req w0. destruct (callback_or_not r) as [->|Hr];
      [|exact (route_keeps_token env req w0 Hr)].
    cbn [handle].
    destruct (callback_effect env req w0)
      as [[_ Hsame]|[code [d [token [_ [Hn _]]]]]]; [exact Hsame|].
    destruct (Hnet (outbound w0) code) as [detail Hd]. congruence. }
  split.
  - revert w. induction invocations as [|[r req] rest IH]; intros w.
    + reflexivity.
    + cbn [serve]. rewrite IH. apply Hstep.
  - revert w. induction invocations as [|[r req] rest IH]; intros w Ht.
    + exists []. rewrite app_nil_r. split; [reflexivity|constructor].
    + cbn [serve].
      destruct (invocation_calls env r req w) as [i1 [Ho1 [_ [_ Hx]]]].
      destruct (IH (snd (alone env (handle env r req) w))) as [i2 [Ho2 Hf2]].
      { rewrite Hstep. exact Ht. }
      exists (i1 ++ i2)%list. rewrite Ho2, Ho1, app_assoc. split; [reflexivity|].
      apply Forall_app. split; [|exact Hf2].
      specialize (Hx Ht). rewrite Forall_forall in *.
      intros rq Hin. destruct (Hx rq Hin) as [code ->].
      split; [reflexivity|exists code; reflexivity].
Qed.

(** X15. A handler reads nothing of the request but [code] (the callback)
    and [week] (the matchup route): two requests that agree on both are
    treated alike by every route. *)
Theorem handlers_read_code_and_week_only (r : Route) (req1 req2 : Req) (w : World) :
  query_param req1 "code" = query_param req2 "code" ->
  query_param req1 "week" = query_param req2 "week" ->
  handle env r req1 w = handle env r req2 w.
Proof.
  intros Hc Hw. destruct r; cbn [handle]; try reflexivity.
  - unfold callback. rewrite Hc. reflexivity.
  - apply nhl_matchups_week. unfold week_of. rewrite Hw. reflexivity.
Qed.

(** X16. The callback stores an [access_token] that is not a string as it
    is.  When it is an object the callback still answers with the
    confirmation; the helper then sends the header
    [Authorization: Bearer [object Object]], unless the object has an own
    [toString] property, when the helper throws and sends nothing. *)
Theorem object_token_is_sent (req : Req) (w : World) (code : string)
    (d : JsValue) (entries : list (string * JsValue)) (u : string) :
  query_param req "code" = JString code ->
  network env (outbound w) (token_request env code) = Resolved d ->
  get_field d "access_token" = Normal (JObject entries) ->
  let w1 := snd (alone env (callback env req) w) in
  fst (alone env (callback env req) w) =
    Normal {| status := 200;
              body := Text "Authentication successful! You can close this window." |} /\
  accessToken w1 = JObject entries /\
  (assoc "toString" entries = None ->
   outbound (snd (alone env (makeAuthenticatedRequest env u) w1)) =
     (outbound w1 ++
        [{| method := GET; url := u;
            headers := [("Authorization", "Bearer [object Object]");
                        ("Content-Type", "application/x-www-form-urlencoded")];
            data := None |}])%list) /\
  (assoc "toString" entries <> None ->
   fst (alone env (makeAuthenticatedRequest env u) w1) = Throw NotPrimitive /\
   outbound (snd (alone env (makeAuthenticatedRequest env u) w1)) = outbound w1).
Proof.
  intros Hc Hn Hg. cbn zeta.
  rewrite (callback_with_code env req w Hc). cbn zeta. rewrite Hn, Hg. worlds.
  split; [reflexivity|]. split; [reflexivity|].
  set (w1 := assigned (JObject entries) (sent (token_request env code) w)).
  rewrite (helper_alone_present env u w1 eq_refl).
  change (accessToken w1) with (JObject entries). cbn [to_string].
  split.
  - intros Hnone. rewrite Hnone. cbn zeta.
    destruct (network env (outbound w1) _); reflexivity.
  - intros Hsome. destruct (assoc "toString" entries); [|contradiction].
    split; reflexivity.
Qed.

End Further.

(** ** The further properties at concrete inputs *)

Lemma boot_serving_witness :
  boot sample_process_env sample_files always_opens =
    Serving {| listenPort := "3000";
               yahooClientId := "client";
               yahooClientSecret := "secret";
               keyPath := "key.pem";
               certPath := "cert.pem" |} /\
  listenPort {| listenPort := "3000";
                yahooClientId := "client";
                yahooClientSecret := "secret";
                keyPath := "key.pem";
                certPath := "cert.pem" |}
    = env_or sample_process_env "PORT" "3000".
Proof.
  split; [reflexivity|].
  exact (proj1 (proj2 (proj2 (proj2
           (@boot_serving sample_process_env sample_files always_opens _
              eq_refl))))).
Defined.

Lemma callback_single_exchange_witness :
  outbound (snd (alone env_unreachable
                   (callback env_unreachable (with_code (JString "abc"))) initial))
    = [token_request env_unreachable "abc"].
Proof.
  exact (proj1 (@callback_single_exchange env_unreachable
                  (with_code (JString "abc")) initial "abc" eq_refl)).
Defined.

Lemma helper_outcome_witness :
  accessToken (snd (alone env_fantasy (makeAuthenticatedRequest env_fantasy gamesUrl)
                      (with_token unprintable))) = unprintable.
Proof.
  exact (proj1 (@helper_outcome env_fantasy gamesUrl
                  (with_token unprintable) eq_refl)).
Defined.

Lemma data_route_console_witness :
  console (snd (alone env_empty_body (handle env_empty_body Test no_params)
                  (with_token (JString "T"))))
    = [("Error making authenticated request:", AxiosError "503");
       ("Error in /test route:", AxiosError "503")].
Proof.
  destruct (@data_route_console env_empty_body Test no_params
              (with_token (JString "T")) eq_refl eq_refl) as [_ H].
  apply (H [] (bearer_request "T" gamesUrl) "503"); reflexivity.
Defined.

Lemma key_read_failure_witness :
  fst (alone env_no_content (handle env_no_content NhlTeams no_params)
         (with_token (JString "T")))
    = Normal {| status := 500; body := Text "Error fetching NHL team information" |} /\
  console (snd (alone env_no_content (handle env_no_content NhlTeams no_params)
                  (with_token (JString "T"))))
    = [("Error in /nhl-teams route:", TypeError "users")].
Proof.
  destruct (@key_read_failure env_no_content NhlTeams no_params
              (with_token (JString "T")) "T"
              (JObject [("error", JString "unavailable")]) (TypeError "users")
              eq_refl eq_refl eq_refl eq_refl
              (@key_read_without_content
                 (JObject [("error", JString "unavailable")]) eq_refl))
    as [H1 [_ [H3 _]]].
  split; assumption.
Defined.

Lemma undefined_key_is_sent_witness :
  awaited (resumed (handle env_keyless NhlTeams no_params (with_token (JString "T")))
                   (Resolved (leagues_with_key JUndefined))
                   (with_token (JString "T"))) =
    Some {| method := GET;
            url := "https://fantasysports.yahooapis.com/fantasy/v2/league/undefined/teams?format=json";
            headers := [("Authorization", "Bearer T");
                        ("Content-Type", "application/x-www-form-urlencoded")];
            data := None |}.
Proof.
  exact (@undefined_key_is_sent env_keyless NhlTeams no_params
           (with_token (JString "T")) "T" (leagues_with_key JUndefined) ""
           (with_token (JString "T")) "T"
           eq_refl eq_refl eq_refl eq_refl
           ltac:(discriminate) eq_refl eq_refl).
Defined.

Lemma week_passed_verbatim_witness :
  awaited (resumed (nhl_matchups env_fantasy
                      (with_week (JArray [JString "1"; JString "2"]))
                      (with_token (JString "T")))
                   (Resolved sample_leagues) (with_token (JString "T"))) =
    Some {| method := GET;
            url := "https://fantasysports.yahooapis.com/fantasy/v2/league/453.l.1234/scoreboard;week=1,2?format=json";
            headers := [("Authorization", "Bearer T");
                        ("Content-Type", "application/x-www-form-urlencoded")];
            data := None |}.
Proof.
  exact (@week_passed_verbatim env_fantasy
           (with_week (JArray [JString "1"; JString "2"]))
           (with_token (JString "T")) "T" sample_leagues (JString "453.l.1234")
           "453.l.1234" "1,2" (with_token (JString "T")) "T"
           eq_refl eq_refl
           (or_intror (ex_intro _ ["1"; "2"] (conj eq_refl eq_refl)))
           eq_refl eq_refl eq_refl eq_refl).
Defined.

Lemma last_exchange_wins_witness :
  accessToken (serve env_fantasy
                 ([(Test, no_params)] ++ [(Callback, with_code (JString "abc"))])
                 (with_token (JString "old"))) = JString "T".
Proof.
  exact (@last_exchange_wins env_fantasy [(Test, no_params)]
           (with_code (JString "abc")) (with_token (JString "old")) "abc"
           (JObject [("access_token", JString "T")]) (JString "T")
           eq_refl eq_refl eq_refl).
Defined.

Lemma no_exchange_no_token_witness :
  accessToken (serve env_unreachable
                 [(Callback, with_code (JString "abc"));
                  (NhlLeagues, no_params);
                  (Callback, with_code (JString "def"))]
                 initial) = JNull.
Proof.
  refine (proj1 (@no_exchange_no_token env_unreachable _ initial _)).
  intros hist code. exists "ECONNREFUSED". reflexivity.
Defined.

Lemma handlers_read_code_and_week_only_witness :
  handle env_fantasy NhlMatchups
    {| query := [("week", JString "7"); ("team", JString "9")] |}
    (with_token (JString "T"))
  = handle env_fantasy NhlMatchups (with_week (JString "7"))
      (with_token (JString "T")).
Proof.
  exact (@handlers_read_code_and_week_only env_fantasy NhlMatchups
           {| query := [("week", JString "7"); ("team", JString "9")] |}
           (with_week (JString "7")) (with_token (JString "T"))
           eq_refl eq_refl).
Defined.

Lemma object_token_is_sent_witness :
  accessToken (snd (alone env_object_token
                      (callback env_object_token (with_code (JString "abc")))
                      initial))
    = JObject [("value", JString "T")] /\
  map headers
    (outbound (snd (alone env_object_token
                      (makeAuthenticatedRequest env_object_token gamesUrl)
                      (snd (alone env_object_token
                              (callback env_object_token
                                 (with_code (JString "abc")))
                              initial))))) =
    [headers (token_request env_object_token "abc");
     [("Authorization", "Bearer [object Object]");
      ("Content-Type", "application/x-www-form-urlencoded")]].
Proof.
  destruct (@object_token_is_sent env_object_token (with_code (JString "abc"))
              initial "abc"
              (JObject [("access_token", JObject [("value", JString "T")])])
              [("value", JString "T")] gamesUrl
              eq_refl eq_refl eq_refl) as [_ [H2 [H3 _]]].
  split; [exact H2|]. rewrite (H3 eq_refl). reflexivity.
Defined.
